(** * Big Trip: the filter view template and the board presenter

    A shallow embedding of [createFilterItemTemplate] (the filter view) and of
    the [BoardPresenter] class (src/presenter/board-presenter.js), with the
    properties of the specification stated over them.

    Strings are [String.string]; a JS number that only ever holds a count or
    a comparator's result is a [Z]; enumerations of const.js are inductive
    types; the presenter's private fields are a record threaded through a
    state-and-exception monad that also collects the calls made to the
    collaborators that live outside the presenter (the render framework,
    the child presenters, the models). *)

From Stdlib Require Import List String Ascii ZArith Bool Lia.
From Stdlib Require Import Permutation Sorted.
Import ListNotations.

Local Open Scope string_scope.
Local Open Scope list_scope.

(** ** Text helpers *)

(** The double quote and the line feed, as one-character strings. *)
Definition dquote : ascii := "034"%char.
Definition dq : string := String dquote EmptyString.
Definition nl : string := String "010"%char EmptyString.

(** [quoted v] is [v] between double quotes, as an attribute value is written
    in the templates. *)
Definition quoted (v : string) : string := (dq ++ v ++ dq)%string.

(** A string with no double quote in it. *)
Fixpoint quote_free (s : string) : bool :=
  match s with
  | EmptyString => true
  | String c s' => negb (Ascii.eqb c dquote) && quote_free s'
  end.

(** ** Reading the attributes of a tag back from markup

    What a browser makes of the start tag [<input ...>]: the text up to the
    first [>] outside a quoted value, split at blanks outside quoted values;
    an attribute's name is the part of its token before [=]. *)

Definition is_blank (c : ascii) : bool :=
  Ascii.eqb c " "%char || Ascii.eqb c "010"%char || Ascii.eqb c "009"%char
  || Ascii.eqb c "012"%char || Ascii.eqb c "013"%char.

Fixpoint strip_prefix (p s : string) : option string :=
  match p with
  | EmptyString => Some s
  | String a p' =>
      match s with
      | EmptyString => None
      | String b s' => if Ascii.eqb a b then strip_prefix p' s' else None
      end
  end.

(** The text that follows the first occurrence of [pat] in [s]. *)
Fixpoint after_first (pat s : string) : option string :=
  match strip_prefix pat s with
  | Some r => Some r
  | None =>
      match s with
      | EmptyString => None
      | String _ s' => after_first pat s'
      end
  end.

(** [push c toks] puts [c] in front of the token being read. *)
Definition push (c : ascii) (toks : list string) : list string :=
  match toks with
  | [] => [String c EmptyString]
  | t :: ts => String c t :: ts
  end.

(** [prepend t toks] puts the text [t] in front of the token being read. *)
Definition prepend (t : string) (toks : list string) : list string :=
  match toks with
  | [] => [t]
  | x :: xs => (t ++ x)%string :: xs
  end.

(** The tokens of a start tag, read from just after the tag's name.
    [in_value] tells whether the reader is inside a quoted value. *)
Fixpoint tag_tokens (in_value : bool) (s : string) : list string :=
  match s with
  | EmptyString => [EmptyString]
  | String c s' =>
      if in_value then push c (tag_tokens (negb (Ascii.eqb c dquote)) s')
      else if Ascii.eqb c ">"%char then [EmptyString]
      else if is_blank c then EmptyString :: tag_tokens false s'
      else push c (tag_tokens (Ascii.eqb c dquote) s')
  end.

Fixpoint attr_name (tok : string) : string :=
  match tok with
  | EmptyString => EmptyString
  | String c t => if Ascii.eqb c "="%char then EmptyString else String c (attr_name t)
  end.

Definition nonempty (s : string) : bool :=
  match s with EmptyString => false | String _ _ => true end.

(** The attribute names of the first [<input ...>] tag of [html]. *)
Definition input_attributes (html : string) : list string :=
  match after_first "<input" html with
  | Some r => filter nonempty (map attr_name (tag_tokens false r))
  | None => []
  end.

Definition input_carries (attribute html : string) : bool :=
  existsb (String.eqb attribute) (input_attributes html).

(** *** Every input of a markup, with the values of its attributes *)

(** The non-empty tokens of the [<input ...>] tag that starts at each place
    of [html] where one starts, in the order of the markup. *)
Fixpoint inputs (html : string) : list (list string) :=
  match html with
  | EmptyString => []
  | String _ html' =>
      match strip_prefix "<input" html with
      | Some r => [List.filter nonempty (tag_tokens false r)]
      | None => []
      end ++ inputs html'
  end.

(** The part of a token after its [=], if it has one. *)
Fixpoint after_equals (tok : string) : option string :=
  match tok with
  | EmptyString => None
  | String c t => if Ascii.eqb c "="%char then Some t else after_equals t
  end.

Fixpoint until_quote (s : string) : string :=
  match s with
  | EmptyString => EmptyString
  | String c t => if Ascii.eqb c dquote then EmptyString else String c (until_quote t)
  end.

(** A quoted value without its quotes; an unquoted one as it is. *)
Definition unquote (s : string) : string :=
  match s with
  | EmptyString => EmptyString
  | String c t => if Ascii.eqb c dquote then until_quote t else s
  end.

(** A text that a parser reads as it is written when it stands in a quoted
    attribute value: it holds no [&] (which starts a character reference,
    [&amp;] is read as [&]), no carriage return (read as a line feed) and no
    null character (read as a replacement character). *)
Fixpoint verbatim (s : string) : bool :=
  match s with
  | EmptyString => true
  | String c s' =>
      negb (Ascii.eqb c "&"%char) && negb (Ascii.eqb c "013"%char)
      && negb (Ascii.eqb c "000"%char) && verbatim s'
  end.

(** The value of the attribute [attribute] among the tokens of a tag, as a
    parser reads it: the empty string for an attribute written without a
    value, the text between the quotes when that text is read as it is
    written. [None] when the tag has no such attribute, and when the text
    needs the decoding that this reader does not do. *)
Definition attribute (attribute : string) (tokens : list string) : option string :=
  match List.find (fun tok => String.eqb (attr_name tok) attribute) tokens with
  | Some tok =>
      match after_equals tok with
      | Some v => if verbatim (unquote v) then Some (unquote v) else None
      | None => Some EmptyString
      end
  | None => None
  end.

Definition has_attribute (attribute : string) (tokens : list string) : bool :=
  existsb (fun tok => String.eqb (attr_name tok) attribute) tokens.

(** A string with no [<] in it. *)
Fixpoint tag_free (s : string) : bool :=
  match s with
  | EmptyString => true
  | String c s' => negb (Ascii.eqb c "<"%char) && tag_free s'
  end.

(** A plain name: no double quote and no [<]. *)
Definition plain (s : string) : bool := quote_free s && tag_free s.

(** ** The filter view (filter-view.js) *)

Module FilterView.

(** An item of the filter list: [{ type, count }]. *)
Record FilterItem := { type : string; count : Z }.

(** [createFilterItemTemplate(filter, currentFilterType)]: the template
    literal, line for line. *)
Definition createFilterItemTemplate (filter : FilterItem) (currentFilterType : string) : string :=
  let type := type filter in
  let count := count filter in
  let isChecked := if String.eqb type currentFilterType then "checked" else "" in
  let isDisabled := if Z.eqb count 0 then "disabled" else "" in
  ("<div class=" ++ quoted "trip-filters__filter" ++ ">" ++ nl ++
  "      <input id=" ++ quoted ("filter-" ++ type)
    ++ " class=" ++ quoted "trip-filters__filter-input  visually-hidden"
    ++ " type=" ++ quoted "radio" ++ " name=" ++ quoted "trip-filter"
    ++ " value=" ++ quoted type ++ " " ++ isChecked ++ " " ++ isDisabled ++ ">" ++ nl ++
  "      <label class=" ++ quoted "trip-filters__filter-label"
    ++ " for=" ++ quoted ("filter-" ++ type) ++ ">" ++ type ++ "</label>" ++ nl ++
  "    </div>")%string.

(** [createFiltersTemplate(filterItems, currentFilterType)]. *)
Definition createFiltersTemplate (filterItems : list FilterItem) (currentFilterType : string) : string :=
  ("<form class=" ++ quoted "trip-filters" ++ " action=" ++ quoted "#"
    ++ " method=" ++ quoted "get" ++ ">" ++ nl ++
  "    " ++ String.concat "" (map (fun filter => createFilterItemTemplate filter currentFilterType) filterItems) ++ nl ++
  "    <button class=" ++ quoted "visually-hidden" ++ " type=" ++ quoted "submit" ++ ">Accept filter</button>" ++ nl ++
  "  </form>")%string.

End FilterView.

(** The tokens expected of the radio input of a filter item. *)
Definition item_tokens (filter : FilterView.FilterItem) (currentFilterType : string) : list string :=
  [ ("id=" ++ quoted ("filter-" ++ FilterView.type filter))%string;
    ("class=" ++ quoted "trip-filters__filter-input  visually-hidden")%string;
    ("type=" ++ quoted "radio")%string;
    ("name=" ++ quoted "trip-filter")%string;
    ("value=" ++ quoted (FilterView.type filter))%string ]
  ++ (if String.eqb (FilterView.type filter) currentFilterType then ["checked"] else [])
  ++ (if Z.eqb (FilterView.count filter) 0 then ["disabled"] else []).

(** The [FilterView] class: its fields, its [template] getter, and its
    change handler. The handler receives the event of a radio input; it calls
    [evt.preventDefault()] and hands [evt.target.value], the input's value,
    to the callback the view was created with. *)
Module FilterViewClass.

Record Fields := {
  filters : list FilterView.FilterItem;
  currentFilterType : string
}.

Inductive ViewCall :=
| evt_preventDefault
| handleFilterTypeChange (value : string).

Definition template (this : Fields) : string :=
  FilterView.createFiltersTemplate (filters this) (currentFilterType this).

Definition filterTypeChangeHandler (evt_target_value : string) : list ViewCall :=
  [evt_preventDefault; handleFilterTypeChange evt_target_value].

End FilterViewClass.

(** ** Constants (const.js)

    const.js is not part of the sources at hand: each enumeration has the
    members the presenter names, taken to be pairwise distinct, and one more
    constructor for any other value a caller may pass. *)

Inductive SortType := DAY | PRICE | TIME | OTHER_SORT (name : string).
Inductive FilterType := EVERYTHING | OTHER_FILTER (name : string).
Inductive UpdateType := PATCH | MINOR | MAJOR | INIT | OTHER_UPDATE (name : string).
Inductive UserAction := UPDATE_POINT | ADD_POINT | DELETE_POINT | OTHER_ACTION (name : string).
Inductive RenderPosition := AFTERBEGIN.

(** [a === b] on sort types. *)
Definition SortType_eqb (a b : SortType) : bool :=
  match a, b with
  | DAY, DAY | PRICE, PRICE | TIME, TIME => true
  | OTHER_SORT x, OTHER_SORT y => String.eqb x y
  | _, _ => false
  end.

(** ** Data (the records the models hold) *)

(** Modelled from the spec: the point, offer and destination records come
    from the models and the server, which are not part of the sources; the
    presenter itself reads [id] only. Fields follow section 3 of the
    specification. *)
Record Point := {
  id : string;
  dateFrom : Z;
  dateTo : Z;
  basePrice : Z;
  pointType : string;
  destination : string;
  offers : list string
}.

Record Offer := { offerId : string; title : string; price : Z }.
Record OffersByType := { offersType : string; typeOffers : list Offer }.
Record Destination := { name : string; description : string; pictures : list string }.

(** ** JavaScript built-ins *)

(** [Array.prototype.sort(compareFn)]. ECMAScript fixes its result when
    [compareFn] is a consistent comparison function for the values of the
    array: the values in the comparator's order, equal ones in the order
    they had (the sort is stable since ES2019), which is what this insertion
    sort returns. For any other comparator the order is left to the engine;
    the properties below speak of an order for consistent comparators
    only. *)
Fixpoint sort_insert (compareFn : Point -> Point -> Z) (x : Point) (l : list Point) : list Point :=
  match l with
  | [] => [x]
  | y :: l' => if (compareFn x y <=? 0)%Z then x :: l else y :: sort_insert compareFn x l'
  end.

Definition Array_sort (compareFn : Point -> Point -> Z) (l : list Point) : list Point :=
  fold_right (sort_insert compareFn) [] l.

(** A [Map] keyed by strings, entries in insertion order. *)
Fixpoint Map_get {V} (key : string) (m : list (string * V)) : option V :=
  match m with
  | [] => None
  | (k, v) :: m' => if String.eqb k key then Some v else Map_get key m'
  end.

(** [Map.prototype.set]: an existing key keeps its place. *)
Fixpoint Map_set {V} (key : string) (value : V) (m : list (string * V)) : list (string * V) :=
  match m with
  | [] => [(key, value)]
  | (k, v) :: m' => if String.eqb k key then (key, value) :: m' else (k, v) :: Map_set key value m'
  end.

(** ** The views the presenter renders *)

Inductive Component :=
| EventListView
| LoadingView
| ErrorView
| SortView (currentSortType : SortType)
| NoPointsView (filterType : FilterType).

(** ** The models, as the presenter sees them *)

Inductive ModelName := pointsModel | filterModel | offerModel | destinationModel.

Definition ModelName_eqb (a b : ModelName) : bool :=
  match a, b with
  | pointsModel, pointsModel | filterModel, filterModel
  | offerModel, offerModel | destinationModel, destinationModel => true
  | _, _ => false
  end.

(** A callback registered on a model: the board presenter's
    [#handleModelEvent], or one of another part of the application. *)
Inductive Observer := BoardPresenter_handleModelEvent | other_observer (name : string).

Definition Observer_eqb (a b : Observer) : bool :=
  match a, b with
  | BoardPresenter_handleModelEvent, BoardPresenter_handleModelEvent => true
  | other_observer x, other_observer y => String.eqb x y
  | _, _ => false
  end.

(** The getters the presenter reads, and the observers registered so far
    (in registration order). *)
Record Models := {
  pointsModel_points : list Point;
  filterModel_filter : FilterType;
  offerModel_offersByType : list OffersByType;
  destinationModel_destinations : list Destination;
  destinationModel_destinationNames : list string;
  registered : list (ModelName * Observer)
}.

Definition observers (m : ModelName) (ms : Models) : list Observer :=
  map snd (List.filter (fun r => ModelName_eqb (fst r) m) (registered ms)).

(** Modelled from the spec: the [Observable] base class of the models
    (framework/observable.js) is not part of the sources; the specification
    names it the observer pattern. [addObserver] adds a callback to the
    model's set of observers. *)
Definition addObserver (m : ModelName) (o : Observer) (ms : Models) : Models :=
  {| pointsModel_points := pointsModel_points ms;
     filterModel_filter := filterModel_filter ms;
     offerModel_offersByType := offerModel_offersByType ms;
     destinationModel_destinations := destinationModel_destinations ms;
     destinationModel_destinationNames := destinationModel_destinationNames ms;
     registered :=
       if existsb (Observer_eqb o) (observers m ms) then registered ms
       else registered ms ++ [(m, o)] |}.

(** The payload of a model notification: none, a point, or a filter type. *)
Inductive Payload := NoPayload | PointPayload (point : Point) | FilterPayload (f : FilterType).

(** ** The presenter's private fields

    [#eventListComponent], [#loadingComponent] and [#errorComponent] never
    change: they are [EventListView], [LoadingView] and [ErrorView]. Child
    presenters are objects of other classes; the fields hold references. *)

Definition Ref := nat.

Record BoardPresenter := {
  sortComponent : option Component;
  noPointsComponent : option Component;
  pointPresenters : list (string * Ref);
  newPointPresenter : option Ref;
  currentSortType : SortType;
  filterType : FilterType;
  isLoading : bool
}.

Record World := {
  models : Models;
  this : BoardPresenter;
  next_ref : Ref
}.

(** ** Calls to collaborators

    The render framework, the child presenters and the models' mutators are
    outside the presenter: a run of a method records the calls it makes to
    them, in order. They are taken to return normally. [render c place] is
    [render(c, this.#container, place)], [None] an omitted argument;
    [remove None] is [remove(null)]. *)
Inductive Call :=
| render (component : Component) (place : option RenderPosition)
| remove (component : option Component)
| new_PointPresenter (r : Ref) (offersByType : list OffersByType)
    (destinations : list Destination) (destinationNames : list string)
| PointPresenter_init (r : Ref) (point : Point)
| PointPresenter_destroy (r : Ref)
| PointPresenter_resetView (r : Ref)
| new_NewPointPresenter (r : Ref) (destinations : list Destination)
    (destinationNames : list string)
| NewPointPresenter_init (r : Ref)
| NewPointPresenter_destroy (r : Ref)
| pointsModel_updatePoint (updateType : UpdateType) (update : Point)
| pointsModel_addPoint (updateType : UpdateType) (update : Point)
| pointsModel_deletePoint (updateType : UpdateType) (update : Point)
| filterModel_setFilter (updateType : UpdateType) (f : FilterType)
| call_observer (name : string) (updateType : UpdateType) (data : Payload).

(** ** The monad of a method run: state, exceptions, recorded calls *)

Inductive Error := TypeError (what : string).

Inductive Completion (A : Type) :=
| Normal (a : A)
| Throw (e : Error).
Arguments Normal {A} a.
Arguments Throw {A} e.

Record Run (A : Type) := {
  completion : Completion A;
  world : World;
  calls : list Call
}.
Arguments completion {A} _.
Arguments world {A} _.
Arguments calls {A} _.
Arguments Build_Run {A} _ _ _.

Definition M (A : Type) : Type := World -> Run A.

Definition ret {A} (a : A) : M A := fun w => Build_Run (Normal a) w [].

(** [after cs r]: the run [r], made after the calls [cs]. *)
Definition after {A} (cs : list Call) (r : Run A) : Run A :=
  Build_Run (completion r) (world r) (cs ++ calls r).

Definition bind {A B} (m : M A) (k : A -> M B) : M B :=
  fun w =>
    match m w with
    | Build_Run (Normal a) w' cs => after cs (k a w')
    | Build_Run (Throw e) w' cs => Build_Run (Throw e) w' cs
    end.

Notation "x <- m ;; k" := (bind m (fun x => k))
  (at level 61, m at next level, right associativity).
Notation "m ;; k" := (bind m (fun _ => k))
  (at level 61, right associativity).

Definition throw {A} (e : Error) : M A := fun w => Build_Run (Throw e) w [].
Definition call (c : Call) : M unit := fun w => Build_Run (Normal tt) w [c].
Definition self : M BoardPresenter := fun w => Build_Run (Normal (this w)) w [].
Definition read_models : M Models := fun w => Build_Run (Normal (models w)) w [].
Definition with_this (f : BoardPresenter -> BoardPresenter) (w : World) : World :=
  {| models := models w; this := f (this w); next_ref := next_ref w |}.
Definition modify (f : BoardPresenter -> BoardPresenter) : M unit :=
  fun w => Build_Run (Normal tt) (with_this f w) [].
Definition new_ref : M Ref :=
  fun w => Build_Run (Normal (next_ref w))
    {| models := models w; this := this w; next_ref := S (next_ref w) |} [].

(** [array.forEach(f)]. *)
Fixpoint forEach {A} (f : A -> M unit) (l : list A) : M unit :=
  match l with
  | [] => ret tt
  | x :: l' => f x ;; forEach f l'
  end.

(** Assignments to the private fields. *)
Definition set_sortComponent (v : option Component) (b : BoardPresenter) : BoardPresenter :=
  {| sortComponent := v; noPointsComponent := noPointsComponent b;
     pointPresenters := pointPresenters b; newPointPresenter := newPointPresenter b;
     currentSortType := currentSortType b; filterType := filterType b;
     isLoading := isLoading b |}.
Definition set_noPointsComponent (v : option Component) (b : BoardPresenter) : BoardPresenter :=
  {| sortComponent := sortComponent b; noPointsComponent := v;
     pointPresenters := pointPresenters b; newPointPresenter := newPointPresenter b;
     currentSortType := currentSortType b; filterType := filterType b;
     isLoading := isLoading b |}.
Definition set_pointPresenters (v : list (string * Ref)) (b : BoardPresenter) : BoardPresenter :=
  {| sortComponent := sortComponent b; noPointsComponent := noPointsComponent b;
     pointPresenters := v; newPointPresenter := newPointPresenter b;
     currentSortType := currentSortType b; filterType := filterType b;
     isLoading := isLoading b |}.
Definition set_newPointPresenter (v : option Ref) (b : BoardPresenter) : BoardPresenter :=
  {| sortComponent := sortComponent b; noPointsComponent := noPointsComponent b;
     pointPresenters := pointPresenters b; newPointPresenter := v;
     currentSortType := currentSortType b; filterType := filterType b;
     isLoading := isLoading b |}.
Definition set_currentSortType (v : SortType) (b : BoardPresenter) : BoardPresenter :=
  {| sortComponent := sortComponent b; noPointsComponent := noPointsComponent b;
     pointPresenters := pointPresenters b; newPointPresenter := newPointPresenter b;
     currentSortType := v; filterType := filterType b;
     isLoading := isLoading b |}.
Definition set_filterType (v : FilterType) (b : BoardPresenter) : BoardPresenter :=
  {| sortComponent := sortComponent b; noPointsComponent := noPointsComponent b;
     pointPresenters := pointPresenters b; newPointPresenter := newPointPresenter b;
     currentSortType := currentSortType b; filterType := v;
     isLoading := isLoading b |}.
Definition set_isLoading (v : bool) (b : BoardPresenter) : BoardPresenter :=
  {| sortComponent := sortComponent b; noPointsComponent := noPointsComponent b;
     pointPresenters := pointPresenters b; newPointPresenter := newPointPresenter b;
     currentSortType := currentSortType b; filterType := filterType b;
     isLoading := v |}.

(** ** The board presenter (presenter/board-presenter.js) *)

Section BoardPresenterMethods.

(** filter.js and utils.js are not part of the sources: the table of filter
    functions and the three comparators are parameters. The table has an
    entry for every filter type, and an entry returns an array of its own,
    as [Array.prototype.filter] does, so that sorting it in place leaves the
    model's array as it is. *)
Variable filter : FilterType -> list Point -> list Point.
Variables sortDay sortPrice sortTime : Point -> Point -> Z.

(** The field initialisers (lines 14 to 34). *)
Definition initial_fields : BoardPresenter :=
  {| sortComponent := None;
     noPointsComponent := None;
     pointPresenters := [];
     newPointPresenter := None;
     currentSortType := DAY;
     filterType := EVERYTHING;
     isLoading := true |}.

(** [constructor]: the presenter is created over the models [ms] and
    registers [#handleModelEvent] on each of them. *)
Definition constructor (ms : Models) : World :=
  let ms := addObserver pointsModel BoardPresenter_handleModelEvent ms in
  let ms := addObserver filterModel BoardPresenter_handleModelEvent ms in
  let ms := addObserver offerModel BoardPresenter_handleModelEvent ms in
  let ms := addObserver destinationModel BoardPresenter_handleModelEvent ms in
  {| models := ms; this := initial_fields; next_ref := 0 |}.

(** [get points()]. *)
Definition get_points : M (list Point) :=
  ms <- read_models ;;
  modify (set_filterType (filterModel_filter ms)) ;;
  this <- self ;;
  let points := pointsModel_points ms in
  let filteredPoints := filter (filterType this) points in
  match currentSortType this with
  | DAY => ret (Array_sort sortDay filteredPoints)
  | PRICE => ret (Array_sort sortPrice filteredPoints)
  | TIME => ret (Array_sort sortTime filteredPoints)
  | OTHER_SORT _ => ret filteredPoints
  end.

(** [#handleViewAction(actionType, updateType, update)]. *)
Definition handleViewAction (actionType : UserAction) (updateType : UpdateType)
    (update : Point) : M unit :=
  match actionType with
  | UPDATE_POINT => call (pointsModel_updatePoint updateType update)
  | ADD_POINT => call (pointsModel_addPoint updateType update)
  | DELETE_POINT => call (pointsModel_deletePoint updateType update)
  | OTHER_ACTION _ => ret tt
  end.

(** The error of calling [destroy] on [null]. *)
Definition null_destroy : Error :=
  TypeError "Cannot read properties of null (reading 'destroy')".

(** [this.#newPointPresenter.destroy()]: a [TypeError] on [null]. *)
Definition newPointPresenter_destroy : M unit :=
  this <- self ;;
  match newPointPresenter this with
  | Some r => call (NewPointPresenter_destroy r)
  | None => throw null_destroy
  end.

(** [#clearBoard({ resetSortType = false } = {})]. *)
Definition clearBoard (resetSortType : bool) : M unit :=
  this <- self ;;
  forEach (fun entry => call (PointPresenter_destroy (snd entry))) (pointPresenters this) ;;
  modify (set_pointPresenters []) ;;
  this <- self ;;
  call (remove (sortComponent this)) ;;
  call (remove (noPointsComponent this)) ;;
  call (remove (Some LoadingView)) ;;
  match noPointsComponent this with
  | Some _ => call (remove (noPointsComponent this))
  | None => ret tt
  end ;;
  (if resetSortType then modify (set_currentSortType DAY) else ret tt) ;;
  newPointPresenter_destroy.

(** [#renderPoint(point)]. *)
Definition renderPoint (point : Point) : M unit :=
  ms <- read_models ;;
  pointPresenter <- new_ref ;;
  call (new_PointPresenter pointPresenter (offerModel_offersByType ms)
          (destinationModel_destinations ms) (destinationModel_destinationNames ms)) ;;
  call (PointPresenter_init pointPresenter point) ;;
  modify (fun this => set_pointPresenters (Map_set (id point) pointPresenter (pointPresenters this)) this).

(** [#handleModeChange()]. *)
Definition handleModeChange : M unit :=
  this <- self ;;
  forEach (fun entry => call (PointPresenter_resetView (snd entry))) (pointPresenters this) ;;
  newPointPresenter_destroy.

(** [#renderSort()]. *)
Definition renderSort : M unit :=
  this <- self ;;
  let sortComponent := SortView (currentSortType this) in
  modify (set_sortComponent (Some sortComponent)) ;;
  call (render sortComponent (Some AFTERBEGIN)).

(** [#renderLoading()]. *)
Definition renderLoading : M unit :=
  call (render LoadingView (Some AFTERBEGIN)).

(** [#renderError()]. *)
Definition renderError : M unit :=
  call (render ErrorView (Some AFTERBEGIN)).

(** [#renderNoPoints()]. *)
Definition renderNoPoints : M unit :=
  this <- self ;;
  let noPointsComponent := NoPointsView (filterType this) in
  modify (set_noPointsComponent (Some noPointsComponent)) ;;
  call (render noPointsComponent None).

(** [#renderPointList(points)]. *)
Definition renderPointList (points : list Point) : M unit :=
  call (render EventListView None) ;;
  forEach renderPoint points.

(** [#renderBoard()]. *)
Definition renderBoard : M unit :=
  points <- get_points ;;
  let pointCount := List.length points in
  this <- self ;;
  if isLoading this then renderLoading
  else if Nat.eqb pointCount 0 then renderNoPoints
  else
    renderSort ;;
    points <- get_points ;;
    renderPointList points.

(** [init()]. *)
Definition init : M unit := renderBoard.

(** [createPoint()]. *)
Definition createPoint : M unit :=
  modify (set_currentSortType DAY) ;;
  call (filterModel_setFilter MAJOR EVERYTHING) ;;
  this <- self ;;
  match newPointPresenter this with
  | Some r => call (NewPointPresenter_init r)
  | None => throw (TypeError "Cannot read properties of null (reading 'init')")
  end.

(** [#handleSortTypeChange(sortType)]. The sort type is handed to
    [#clearBoard] where an options object is expected: it has no
    [resetSortType] property, so the default [false] applies. *)
Definition handleSortTypeChange (sortType : SortType) : M unit :=
  this <- self ;;
  if SortType_eqb (currentSortType this) sortType then ret tt
  else
    modify (set_currentSortType sortType) ;;
    clearBoard false ;;
    renderBoard.

(** [this.#pointPresenters.get(data.id).init(data)]: a [TypeError] when
    [data] is undefined or the map has no presenter under [data.id] (a
    payload that is no point has no [id]). *)
Definition pointPresenter_init (data : Payload) : M unit :=
  this <- self ;;
  match data with
  | PointPayload point =>
      match Map_get (id point) (pointPresenters this) with
      | Some r => call (PointPresenter_init r point)
      | None => throw (TypeError "Cannot read properties of undefined (reading 'init')")
      end
  | FilterPayload _ => throw (TypeError "Cannot read properties of undefined (reading 'init')")
  | NoPayload => throw (TypeError "Cannot read properties of undefined (reading 'id')")
  end.

(** [#handleModelEvent(updateType, data)]. *)
Definition handleModelEvent (updateType : UpdateType) (data : Payload) : M unit :=
  match updateType with
  | PATCH => pointPresenter_init data
  | MINOR =>
      clearBoard false ;;
      renderBoard
  | MAJOR =>
      clearBoard true ;;
      renderBoard
  | INIT =>
      modify (set_isLoading false) ;;
      call (remove (Some LoadingView)) ;;
      ms <- read_models ;;
      if Nat.eqb (List.length (offerModel_offersByType ms)) 0
         || Nat.eqb (List.length (destinationModel_destinations ms)) 0
      then renderError
      else
        newPointPresenter <- new_ref ;;
        call (new_NewPointPresenter newPointPresenter (destinationModel_destinations ms)
                (destinationModel_destinationNames ms)) ;;
        modify (set_newPointPresenter (Some newPointPresenter)) ;;
        renderBoard
  | OTHER_UPDATE _ => ret tt
  end.

(** Modelled from the spec: [Observable._notify(updateType, data)], which is
    not part of the sources: a model that changes calls each of its observers
    with the update type and the payload. *)
Definition notify (m : ModelName) (updateType : UpdateType) (data : Payload) : M unit :=
  ms <- read_models ;;
  forEach (fun o =>
             match o with
             | BoardPresenter_handleModelEvent => handleModelEvent updateType data
             | other_observer name => call (call_observer name updateType data)
             end)
          (observers m ms).

End BoardPresenterMethods.

(** ** Vocabulary of the properties *)

Section Views.

Variable filter : FilterType -> list Point -> list Point.
Variables sortDay sortPrice sortTime : Point -> Point -> Z.

(** The comparator that goes with a sort type, if any. *)
Definition comparator (s : SortType) : option (Point -> Point -> Z) :=
  match s with
  | DAY => Some sortDay
  | PRICE => Some sortPrice
  | TIME => Some sortTime
  | OTHER_SORT _ => None
  end.

(** The view array as the specification words it: the points collection
    with the current filter applied, then sorted by the current sort type. *)
Definition filtered_then_sorted (ms : Models) (s : SortType) : list Point :=
  let filtered := filter (filterModel_filter ms) (pointsModel_points ms) in
  match comparator s with
  | Some compareFn => Array_sort compareFn filtered
  | None => filtered
  end.

End Views.

(** [a] may stand before [b]: the comparator does not put [b] first. *)
Definition precedes (compareFn : Point -> Point -> Z) (a b : Point) : Prop :=
  (compareFn a b <= 0)%Z.

(** A consistent comparison function for the values [values], as ECMAScript
    defines it for [Array.prototype.sort]: with [a = b], [a < b] and [a > b]
    for [compareFn a b] being zero, negative and positive, [=] is reflexive,
    symmetric and transitive, and [<] and [>] are transitive. *)
Definition consistent (compareFn : Point -> Point -> Z) (values : list Point) : Prop :=
  forall a b c, In a values -> In b values -> In c values ->
    (compareFn a a = 0)%Z /\
    (compareFn a b = 0 -> compareFn b a = 0)%Z /\
    (compareFn a b = 0 -> compareFn b c = 0 -> compareFn a c = 0)%Z /\
    (compareFn a b < 0 -> compareFn b c < 0 -> compareFn a c < 0)%Z /\
    (compareFn a b > 0 -> compareFn b c > 0 -> compareFn a c > 0)%Z.

(** The points of [points] that the comparator holds equal to [point]. *)
Definition equals_of (compareFn : Point -> Point -> Z) (point : Point) (points : list Point)
    : list Point :=
  List.filter (fun q => Z.eqb (compareFn point q) 0) points.

(** The display states of the board, and the call that shows each. *)
Inductive DisplayState := ShowLoading | ShowError | ShowEmpty | ShowList.

Definition shows (c : Call) : option DisplayState :=
  match c with
  | render LoadingView _ => Some ShowLoading
  | render ErrorView _ => Some ShowError
  | render (NoPointsView _) _ => Some ShowEmpty
  | render (SortView _) _ => Some ShowList
  | _ => None
  end.

Fixpoint display_states (cs : list Call) : list DisplayState :=
  match cs with
  | [] => []
  | c :: cs' =>
      match shows c with
      | Some d => d :: display_states cs'
      | None => display_states cs'
      end
  end.

(** The point presenters a run creates, each with the point it is
    initialised with right after. *)
Fixpoint created_presenters (cs : list Call) : list (Ref * Point) :=
  match cs with
  | new_PointPresenter r _ _ _ :: PointPresenter_init r' point :: cs' =>
      if Nat.eqb r r' then (r, point) :: created_presenters cs' else created_presenters cs'
  | _ :: cs' => created_presenters cs'
  | [] => []
  end.

(** The calls that create and initialise one presenter per point, with
    references from [r] on. *)
Fixpoint point_presenter_calls (ms : Models) (r : Ref) (points : list Point) : list Call :=
  match points with
  | [] => []
  | point :: points' =>
      new_PointPresenter r (offerModel_offersByType ms) (destinationModel_destinations ms)
        (destinationModel_destinationNames ms)
      :: PointPresenter_init r point
      :: point_presenter_calls ms (S r) points'
  end.

(** The presenter map after one presenter per point has been registered. *)
Fixpoint register (points : list Point) (r : Ref) (m : list (string * Ref)) : list (string * Ref) :=
  match points with
  | [] => m
  | point :: points' => register points' (S r) (Map_set (id point) r m)
  end.

(** The calls of [#clearBoard] on the fields [b]: every child presenter is
    destroyed, the three views are removed, the no-points view once more when
    there is one, and the new-point presenter is destroyed when there is one. *)
Definition clearBoard_calls (b : BoardPresenter) : list Call :=
  map (fun entry => PointPresenter_destroy (snd entry)) (pointPresenters b)
  ++ [remove (sortComponent b); remove (noPointsComponent b); remove (Some LoadingView)]
  ++ match noPointsComponent b with
     | Some _ => [remove (noPointsComponent b)]
     | None => []
     end
  ++ match newPointPresenter b with
     | Some r => [NewPointPresenter_destroy r]
     | None => []
     end.

(** The world once [#clearBoard] has run: the map is empty, and the sort
    type is DAY when a reset was asked for. *)
Definition cleared (resetSortType : bool) (w : World) : World :=
  with_this (fun b => if resetSortType
                      then set_currentSortType DAY (set_pointPresenters [] b)
                      else set_pointPresenters [] b) w.

(** The calls a notification makes to the observers of the other parts of
    the application. *)
Fixpoint external_calls (updateType : UpdateType) (data : Payload) (os : list Observer) : list Call :=
  match os with
  | [] => []
  | other_observer name :: os' => call_observer name updateType data :: external_calls updateType data os'
  | BoardPresenter_handleModelEvent :: os' => external_calls updateType data os'
  end.

(** Whether a call renders a view or creates a child presenter. *)
Definition renders (c : Call) : bool :=
  match c with
  | render _ _ | new_PointPresenter _ _ _ _ | new_NewPointPresenter _ _ _ => true
  | _ => false
  end.

(** The presenters a run destroys, and those whose view it resets. *)
Fixpoint destroyed_presenters (cs : list Call) : list Ref :=
  match cs with
  | [] => []
  | PointPresenter_destroy r :: cs' => r :: destroyed_presenters cs'
  | _ :: cs' => destroyed_presenters cs'
  end.

Fixpoint reset_presenters (cs : list Call) : list Ref :=
  match cs with
  | [] => []
  | PointPresenter_resetView r :: cs' => r :: reset_presenters cs'
  | _ :: cs' => reset_presenters cs'
  end.

(** The error of calling [init] on the presenter a lookup did not find. *)
Definition undefined_init : Error :=
  TypeError "Cannot read properties of undefined (reading 'init')".

(** ** Sample data *)

Definition point_a : Point :=
  {| id := "a"; dateFrom := 10; dateTo := 40; basePrice := 300;
     pointType := "taxi"; destination := "d1"; offers := [] |}.
Definition point_b : Point :=
  {| id := "b"; dateFrom := 5; dateTo := 50; basePrice := 700;
     pointType := "flight"; destination := "d2"; offers := ["o1"] |}.
Definition point_c : Point :=
  {| id := "c"; dateFrom := 20; dateTo := 95; basePrice := 300;
     pointType := "bus"; destination := "d1"; offers := [] |}.

Definition sample_filter (f : FilterType) (points : list Point) : list Point :=
  match f with
  | EVERYTHING => points
  | OTHER_FILTER _ => List.filter (fun p => (15 <? dateFrom p)%Z) points
  end.
Definition by_day (a b : Point) : Z := (dateFrom a - dateFrom b)%Z.
Definition by_price (a b : Point) : Z := (basePrice b - basePrice a)%Z.
Definition by_time (a b : Point) : Z :=
  ((dateTo b - dateFrom b) - (dateTo a - dateFrom a))%Z.

(** A comparator that answers 1 or 0 only: not a consistent one. *)
Definition one_or_zero (a b : Point) : Z :=
  if (basePrice a <? basePrice b)%Z then 1%Z else 0%Z.

Definition sample_models : Models :=
  {| pointsModel_points := [point_a; point_b; point_c];
     filterModel_filter := EVERYTHING;
     offerModel_offersByType := [{| offersType := "flight"; typeOffers := [{| offerId := "o1"; title := "Meal"; price := 15 |}] |}];
     destinationModel_destinations := [{| name := "Geneva"; description := "Lake"; pictures := [] |}];
     destinationModel_destinationNames := ["Geneva"];
     registered := [(filterModel, other_observer "FilterPresenter")] |}.

(** The same models when nothing could be loaded. *)
Definition failed_models : Models :=
  {| pointsModel_points := [];
     filterModel_filter := EVERYTHING;
     offerModel_offersByType := [];
     destinationModel_destinations := [];
     destinationModel_destinationNames := [];
     registered := [(filterModel, other_observer "FilterPresenter")] |}.

(** The items of a filter list. *)
Definition sample_filters : list FilterView.FilterItem :=
  [ {| FilterView.type := "everything"; FilterView.count := 3 |};
    {| FilterView.type := "future"; FilterView.count := 0 |};
    {| FilterView.type := "present"; FilterView.count := 1 |};
    {| FilterView.type := "past"; FilterView.count := 2 |} ].

(** A second point under the id of [point_a], and a loaded, empty board over
    models that hold both. *)
Definition point_a_again : Point :=
  {| id := "a"; dateFrom := 60; dateTo := 70; basePrice := 100;
     pointType := "train"; destination := "d2"; offers := [] |}.

Definition duplicate_world : World :=
  {| models :=
       {| pointsModel_points := [point_a; point_b; point_a_again];
          filterModel_filter := EVERYTHING;
          offerModel_offersByType := offerModel_offersByType sample_models;
          destinationModel_destinations := destinationModel_destinations sample_models;
          destinationModel_destinationNames := ["Geneva"];
          registered := [] |};
     this := set_isLoading false initial_fields;
     next_ref := 0 |}.

(** The sample presenter once its data has loaded and the board is drawn. *)
Definition loaded_world : World :=
  world (handleModelEvent sample_filter by_day by_price by_time INIT NoPayload
           (constructor sample_models)).

(** * Properties *)

(** ** Text *)

Lemma append_assoc (a b c : string) : ((a ++ b) ++ c = a ++ (b ++ c))%string.
Proof.
  induction a as [|x a IH]; simpl; [reflexivity | now rewrite IH].
Qed.

Lemma push_prepend c t toks : push c (prepend t toks) = prepend (String c t) toks.
Proof. destruct toks; reflexivity. Qed.

(** Inside a quoted value the reader passes over a text without double quote
    and leaves the value at the quote that follows it. *)
Lemma tag_tokens_value (t rest : string) :
  quote_free t = true ->
  tag_tokens true (t ++ String dquote rest)
  = prepend t (push dquote (tag_tokens false rest)).
Proof.
  induction t as [|c t IH]; simpl; intros Hq.
  - destruct (tag_tokens false rest); reflexivity.
  - apply andb_prop in Hq as [Hc Ht].
    rewrite Hc, (IH Ht). apply push_prepend.
Qed.

Section FilterViewProperties.
Import FilterView.

(** The attributes of the radio input, as read back from the markup. *)
Lemma createFilterItemTemplate_attributes
  (filter : FilterItem) (currentFilterType : string) :
  quote_free (type filter) = true ->
  input_attributes (createFilterItemTemplate filter currentFilterType)
  = ["id"; "class"; "type"; "name"; "value"]
    ++ (if String.eqb (type filter) currentFilterType then ["checked"] else [])
    ++ (if Z.eqb (count filter) 0 then ["disabled"] else []).
Proof.
  intros Hq. destruct filter as [ty n]; simpl in *.
  unfold input_attributes, createFilterItemTemplate, quoted, dq, nl.
  cbn [type count].
  cbn.
  rewrite !append_assoc. cbn [String.append].
  rewrite tag_tokens_value by assumption. cbn.
  rewrite tag_tokens_value by assumption.
  destruct (String.eqb ty currentFilterType), (Z.eqb n 0); reflexivity.
Qed.

(** C1. In the markup [createFilterItemTemplate] produces for a filter item,
    the radio input carries the [disabled] attribute if and only if the
    item's count is 0. The item's type is a filter name: it holds no double
    quote, so it stays inside the attribute values it is written into. *)
Theorem createFilterItemTemplate_disabled_iff_zero
  (filter : FilterItem) (currentFilterType : string) :
  quote_free (type filter) = true ->
  input_carries "disabled" (createFilterItemTemplate filter currentFilterType) = true
  <-> count filter = 0%Z.
Proof.
  intros Hq. unfold input_carries.
  rewrite (createFilterItemTemplate_attributes _ _ Hq).
  rewrite <- Z.eqb_eq.
  destruct (String.eqb (type filter) currentFilterType), (Z.eqb (count filter) 0);
    simpl; intuition congruence.
Qed.

End FilterViewProperties.

(** ** Array.prototype.sort *)

Lemma sort_insert_perm compareFn x l : Permutation (x :: l) (sort_insert compareFn x l).
Proof.
  induction l as [|y l IH]; simpl.
  - apply Permutation_refl.
  - destruct (compareFn x y <=? 0)%Z.
    + apply Permutation_refl.
    + eapply perm_trans; [apply perm_swap | apply perm_skip, IH].
Qed.

Lemma Array_sort_perm compareFn l : Permutation l (Array_sort compareFn l).
Proof.
  induction l as [|x l IH]; simpl.
  - constructor.
  - eapply perm_trans; [apply perm_skip, IH | apply sort_insert_perm].
Qed.

(** *** Consistent comparators *)

Lemma consistent_incl compareFn (values values' : list Point) :
  incl values' values -> consistent compareFn values -> consistent compareFn values'.
Proof.
  intros Hincl Hc a b c Ha Hb Hc'. apply Hc; apply Hincl; assumption.
Qed.

Lemma consistent_flip compareFn values a b :
  consistent compareFn values -> In a values -> In b values ->
  (compareFn a b > 0 -> compareFn b a < 0)%Z.
Proof.
  intros Hc Ha Hb Hgt.
  destruct (Hc a b a Ha Hb Ha) as (Hrefl & _ & _ & _ & Hgtt).
  destruct (Hc b a b Hb Ha Hb) as (_ & Hsym & _).
  lia.
Qed.

Lemma consistent_flip_lt compareFn values a b :
  consistent compareFn values -> In a values -> In b values ->
  (compareFn a b < 0 -> compareFn b a > 0)%Z.
Proof.
  intros Hc Ha Hb Hlt.
  destruct (Hc a b a Ha Hb Ha) as (Hrefl & _ & _ & Hltt & _).
  destruct (Hc b a b Hb Ha Hb) as (_ & Hsym & _).
  lia.
Qed.

Lemma consistent_total compareFn values a b :
  consistent compareFn values -> In a values -> In b values ->
  precedes compareFn a b \/ precedes compareFn b a.
Proof.
  intros Hc Ha Hb. unfold precedes.
  pose proof (consistent_flip compareFn values a b Hc Ha Hb). lia.
Qed.

Lemma consistent_precedes_trans compareFn values a b c :
  consistent compareFn values -> In a values -> In b values -> In c values ->
  precedes compareFn a b -> precedes compareFn b c -> precedes compareFn a c.
Proof.
  intros Hc Ha Hb Hc'. unfold precedes. intros Hab Hbc.
  pose proof (consistent_flip compareFn values a c Hc Ha Hc') as Fac.
  pose proof (consistent_flip_lt compareFn values b c Hc Hb Hc') as Fbc.
  destruct (Hc a b c Ha Hb Hc') as (_ & _ & Eabc & Labc & _).
  destruct (Hc c a b Hc' Ha Hb) as (_ & _ & _ & Lcab & _).
  destruct (Hc a c b Ha Hc' Hb) as (_ & _ & _ & _ & Gacb).
  destruct (Hc b c a Hb Hc' Ha) as (_ & Sbc & _).
  lia.
Qed.

Lemma sort_insert_sorted compareFn x l :
  consistent compareFn (x :: l) ->
  StronglySorted (precedes compareFn) l ->
  StronglySorted (precedes compareFn) (sort_insert compareFn x l).
Proof.
  induction l as [|y l IH]; simpl; intros Hc Hs.
  - repeat constructor.
  - apply StronglySorted_inv in Hs as [Hl Hy].
    destruct (compareFn x y <=? 0)%Z eqn:E.
    + apply Z.leb_le in E.
      constructor; [constructor; assumption |].
      constructor; [exact E |].
      rewrite Forall_forall in *. intros z Hz.
      apply (consistent_precedes_trans compareFn (x :: y :: l) x y z); simpl; auto.
    + apply Z.leb_gt in E.
      constructor.
      * apply IH; [| exact Hl].
        apply (consistent_incl compareFn (x :: y :: l)); [| exact Hc].
        intros z [-> | Hz]; simpl; auto.
      * rewrite Forall_forall in *. intros z Hz.
        apply (Permutation_in z (Permutation_sym (sort_insert_perm compareFn x l))) in Hz.
        destruct Hz as [<- | Hz]; [| now apply Hy].
        destruct (consistent_total compareFn (x :: y :: l) x y Hc) as [H | H];
          simpl; auto.
        unfold precedes in H. lia.
Qed.

Lemma Array_sort_sorted compareFn l :
  consistent compareFn l -> StronglySorted (precedes compareFn) (Array_sort compareFn l).
Proof.
  induction l as [|x l IH]; simpl; intros Hc; [constructor |].
  apply sort_insert_sorted.
  - apply (consistent_incl compareFn (x :: l)); [| exact Hc].
    intros z [-> | Hz]; [now left | right].
    apply (Permutation_in z (Permutation_sym (Array_sort_perm compareFn l))), Hz.
  - apply IH. apply (consistent_incl compareFn (x :: l)); [| exact Hc].
    intros z Hz. now right.
Qed.

(** Insertion leaves the points equal to a given one in the order they had. *)
Lemma sort_insert_stable compareFn point x l :
  consistent compareFn (point :: x :: l) ->
  equals_of compareFn point (sort_insert compareFn x l)
  = equals_of compareFn point (x :: l).
Proof.
  unfold equals_of. induction l as [|y l IH]; intros Hc; [reflexivity |].
  cbn [sort_insert]. destruct (compareFn x y <=? 0)%Z eqn:E; [reflexivity |].
  apply Z.leb_gt in E.
  cbn [List.filter]. rewrite IH.
  - cbn [List.filter].
    destruct (compareFn point x =? 0)%Z eqn:Ex, (compareFn point y =? 0)%Z eqn:Ey;
      try reflexivity.
    apply Z.eqb_eq in Ex, Ey. exfalso.
    destruct (Hc point x point) as (_ & Spx & _); simpl; auto.
    destruct (Hc x point y) as (_ & _ & Exy & _); simpl; auto.
    lia.
  - apply (consistent_incl compareFn (point :: x :: y :: l)); [| exact Hc].
    intros z [-> | [-> | Hz]]; simpl; auto.
Qed.

Lemma Array_sort_stable compareFn point l :
  consistent compareFn (point :: l) ->
  equals_of compareFn point (Array_sort compareFn l) = equals_of compareFn point l.
Proof.
  induction l as [|x l IH]; intros Hc; [reflexivity |].
  cbn [Array_sort fold_right]. fold (Array_sort compareFn l).
  rewrite sort_insert_stable.
  - unfold equals_of in *. cbn [List.filter]. rewrite IH; [reflexivity |].
    apply (consistent_incl compareFn (point :: x :: l)); [| exact Hc].
    intros z [-> | Hz]; simpl; auto.
  - apply (consistent_incl compareFn (point :: x :: l)); [| exact Hc].
    intros z [-> | [-> | Hz]]; simpl; auto.
    right; right.
    apply (Permutation_in z (Permutation_sym (Array_sort_perm compareFn l))), Hz.
Qed.

(** ** The monad *)

Lemma after_nil {A} (r : Run A) : after [] r = r.
Proof. destruct r; reflexivity. Qed.

Lemma after_after {A} (cs cs' : list Call) (r : Run A) :
  after cs (after cs' r) = after (cs ++ cs') r.
Proof. unfold after; simpl. now rewrite app_assoc. Qed.

Lemma bind_ret {A B} (a : A) (k : A -> M B) (w : World) : bind (ret a) k w = k a w.
Proof. unfold bind, ret. apply after_nil. Qed.

Lemma bind_self {B} (k : BoardPresenter -> M B) (w : World) : bind self k w = k (this w) w.
Proof. unfold bind, self. apply after_nil. Qed.

Lemma bind_read_models {B} (k : Models -> M B) (w : World) :
  bind read_models k w = k (models w) w.
Proof. unfold bind, read_models. apply after_nil. Qed.

Lemma bind_modify {B} f (k : unit -> M B) (w : World) :
  bind (modify f) k w = k tt (with_this f w).
Proof. unfold bind, modify. apply after_nil. Qed.

Lemma bind_new_ref {B} (k : Ref -> M B) (w : World) :
  bind new_ref k w
  = k (next_ref w) {| models := models w; this := this w; next_ref := S (next_ref w) |}.
Proof. unfold bind, new_ref. apply after_nil. Qed.

Lemma bind_call {B} (c : Call) (k : unit -> M B) (w : World) :
  bind (call c) k w = after [c] (k tt w).
Proof. reflexivity. Qed.

Lemma bind_throw {A B} (e : Error) (k : A -> M B) (w : World) :
  bind (throw e) k w = Build_Run (Throw e) w [].
Proof. reflexivity. Qed.

(** A step that is known to complete normally hands over to what follows. *)
Lemma bind_normal {A B} (m : M A) (k : A -> M B) (w w' : World) (a : A) (cs : list Call) :
  m w = Build_Run (Normal a) w' cs -> bind m k w = after cs (k a w').
Proof. intros E. unfold bind. now rewrite E. Qed.

Lemma bind_thrown {A B} (m : M A) (k : A -> M B) (w w' : World) (e : Error) (cs : list Call) :
  m w = Build_Run (Throw e) w' cs -> bind m k w = Build_Run (Throw e) w' cs.
Proof. intros E. unfold bind. now rewrite E. Qed.

Create Rewrite HintDb run.
#[local] Hint Rewrite @bind_ret @bind_self @bind_read_models @bind_modify @bind_new_ref
  @bind_call @bind_throw @after_nil @after_after : run.

Lemma forEach_calls {A} (f : A -> Call) (l : list A) (w : World) :
  forEach (fun x => call (f x)) l w = Build_Run (Normal tt) w (map f l).
Proof.
  induction l as [|x l IH]; simpl; [reflexivity |].
  rewrite bind_call, IH. reflexivity.
Qed.

Lemma SortType_eqb_refl (s : SortType) : SortType_eqb s s = true.
Proof. destruct s; simpl; [reflexivity .. | apply String.eqb_refl]. Qed.

Lemma SortType_eqb_eq (a b : SortType) : SortType_eqb a b = true <-> a = b.
Proof.
  split.
  - destruct a, b; simpl; try discriminate; try reflexivity.
    intros E. apply String.eqb_eq in E. now subst.
  - intros ->. apply SortType_eqb_refl.
Qed.

(** ** Clearing the board *)

(** [#clearBoard] destroys the children, empties the map, removes the views
    and resets the sort type when asked to, in every state; it completes
    normally exactly when there is a new-point presenter to destroy. *)
Lemma clearBoard_run (resetSortType : bool) (w : World) :
  clearBoard resetSortType w
  = Build_Run
      (match newPointPresenter (this w) with
       | Some _ => Normal tt
       | None => Throw null_destroy
       end)
      (cleared resetSortType w)
      (clearBoard_calls (this w)).
Proof.
  destruct w as [ms b n]. unfold clearBoard, cleared.
  rewrite bind_self.
  rewrite (bind_normal _ _ _ _ _ _ (forEach_calls _ _ _)).
  rewrite bind_modify, bind_self.
  destruct b as [sc npc pps npp cur ft loading].
  unfold clearBoard_calls, newPointPresenter_destroy.
  cbn [with_this this models next_ref set_pointPresenters sortComponent noPointsComponent
       pointPresenters newPointPresenter].
  destruct npc, npp, resetSortType; reflexivity.
Qed.

Lemma clearBoard_calls_render_nothing (b : BoardPresenter) :
  existsb renders (clearBoard_calls b) = false.
Proof.
  unfold clearBoard_calls. rewrite !existsb_app.
  assert (E : existsb renders (map (fun entry => PointPresenter_destroy (snd entry))
                                   (pointPresenters b)) = false).
  { induction (pointPresenters b) as [|e l IH]; [reflexivity | exact IH]. }
  rewrite E. destruct (noPointsComponent b), (newPointPresenter b); reflexivity.
Qed.

Lemma bind_ret_tt (m : M unit) (w : World) : bind m (fun _ => ret tt) w = m w.
Proof.
  unfold bind. destruct (m w) as [[[] | e] w' cs]; [| reflexivity].
  unfold after, ret; simpl. now rewrite app_nil_r.
Qed.

(** ** Observers *)

Lemma Observer_eqb_eq (a b : Observer) : Observer_eqb a b = true <-> a = b.
Proof.
  destruct a as [|x], b as [|y]; simpl; split; try discriminate; try reflexivity.
  - intros E. apply String.eqb_eq in E. now subst.
  - intros E. injection E as ->. apply String.eqb_refl.
Qed.

Lemma existsb_Observer_eqb_false (o : Observer) (os : list Observer) :
  ~ In o os -> existsb (Observer_eqb o) os = false.
Proof.
  intros Hn. destruct (existsb (Observer_eqb o) os) eqn:E; [| reflexivity].
  apply existsb_exists in E as (x & Hin & Hx).
  apply Observer_eqb_eq in Hx. subst x. contradiction.
Qed.

Lemma ModelName_eqb_eq (a b : ModelName) : ModelName_eqb a b = true <-> a = b.
Proof. destruct a, b; simpl; split; congruence. Qed.

(** Registering [o] on [m'] adds it to the observers of [m'], once, and
    leaves the observers of the other models alone. *)
Lemma observers_addObserver (m m' : ModelName) (o : Observer) (ms : Models) :
  observers m (addObserver m' o ms)
  = if ModelName_eqb m' m && negb (existsb (Observer_eqb o) (observers m' ms))
    then observers m ms ++ [o]
    else observers m ms.
Proof.
  unfold addObserver, observers at 1. cbn [registered].
  destruct (existsb (Observer_eqb o) (observers m' ms)).
  - now rewrite andb_false_r.
  - rewrite List.filter_app, map_app. cbn [List.filter fst snd map].
    rewrite andb_true_r. destruct (ModelName_eqb m' m).
    + reflexivity.
    + apply app_nil_r.
Qed.

Lemma addObserver_registers (m : ModelName) (o : Observer) (ms : Models) :
  In o (observers m (addObserver m o ms)).
Proof.
  rewrite observers_addObserver.
  assert (Em : ModelName_eqb m m = true) by now apply ModelName_eqb_eq.
  rewrite Em. cbn [andb].
  destruct (existsb (Observer_eqb o) (observers m ms)) eqn:E; cbn [negb].
  - apply existsb_exists in E as (x & Hin & Hx).
    apply Observer_eqb_eq in Hx. now subst x.
  - apply in_or_app. right. now left.
Qed.

Lemma addObserver_keeps (m m' : ModelName) (o x : Observer) (ms : Models) :
  In x (observers m ms) -> In x (observers m (addObserver m' o ms)).
Proof.
  intros Hin. rewrite observers_addObserver.
  destruct (ModelName_eqb m' m && negb (existsb (Observer_eqb o) (observers m' ms)));
    [apply in_or_app; now left | exact Hin].
Qed.

(** ** Rendering the list *)

Lemma renderPoint_run (point : Point) (w : World) :
  renderPoint point w
  = Build_Run (Normal tt)
      {| models := models w;
         this := set_pointPresenters (Map_set (id point) (next_ref w) (pointPresenters (this w))) (this w);
         next_ref := S (next_ref w) |}
      [new_PointPresenter (next_ref w) (offerModel_offersByType (models w))
         (destinationModel_destinations (models w)) (destinationModel_destinationNames (models w));
       PointPresenter_init (next_ref w) point].
Proof. reflexivity. Qed.

(** [#renderPointList]'s loop creates one presenter per point, initialises
    it with the point and files it under the point's id. *)
Lemma forEach_renderPoint (points : list Point) : forall w : World,
  forEach renderPoint points w
  = Build_Run (Normal tt)
      {| models := models w;
         this := set_pointPresenters (register points (next_ref w) (pointPresenters (this w))) (this w);
         next_ref := List.length points + next_ref w |}
      (point_presenter_calls (models w) (next_ref w) points).
Proof.
  induction points as [|point points IH]; intros w.
  - destruct w as [ms b n]; destruct b; reflexivity.
  - cbn [forEach]. rewrite (bind_normal _ _ _ _ _ _ (renderPoint_run point w)), IH.
    unfold after. cbn [completion world calls models this next_ref].
    cbn [set_pointPresenters pointPresenters register point_presenter_calls List.length app].
    rewrite Nat.add_succ_r. reflexivity.
Qed.

Lemma display_states_point_presenter_calls ms r points :
  display_states (point_presenter_calls ms r points) = [].
Proof.
  revert r; induction points as [|point points IH]; intros r; simpl; [reflexivity | apply IH].
Qed.

Lemma created_presenters_point_presenter_calls ms r points :
  map snd (created_presenters (point_presenter_calls ms r points)) = points.
Proof.
  revert r; induction points as [|point points IH]; intros r; [reflexivity |].
  cbn [point_presenter_calls created_presenters].
  rewrite Nat.eqb_refl. cbn [map snd]. now rewrite IH.
Qed.

Section BoardPresenterProperties.

Variable filter : FilterType -> list Point -> list Point.
Variables sortDay sortPrice sortTime : Point -> Point -> Z.

Local Abbreviation get_points := (get_points filter sortDay sortPrice sortTime).
Local Abbreviation renderBoard := (renderBoard filter sortDay sortPrice sortTime).
Local Abbreviation handleModelEvent := (handleModelEvent filter sortDay sortPrice sortTime).
Local Abbreviation handleSortTypeChange := (handleSortTypeChange filter sortDay sortPrice sortTime).
Local Abbreviation notify := (notify filter sortDay sortPrice sortTime).
Local Abbreviation filtered_then_sorted := (filtered_then_sorted filter sortDay sortPrice sortTime).
Local Abbreviation comparator := (comparator sortDay sortPrice sortTime).

(** The getter returns the view array and copies the model's filter into
    [#filterType]; it makes no call. *)
Lemma get_points_run (w : World) :
  get_points w
  = Build_Run (Normal (filtered_then_sorted (models w) (currentSortType (this w))))
      (with_this (set_filterType (filterModel_filter (models w))) w) [].
Proof.
  unfold get_points, filtered_then_sorted, comparator.
  rewrite bind_read_models, bind_modify, bind_self.
  cbn [with_this this set_filterType currentSortType filterType models].
  destruct (currentSortType (this w)); reflexivity.
Qed.

Lemma renderSort_run (w : World) :
  renderSort w
  = Build_Run (Normal tt)
      (with_this (set_sortComponent (Some (SortView (currentSortType (this w))))) w)
      [render (SortView (currentSortType (this w))) (Some AFTERBEGIN)].
Proof. unfold renderSort. now autorewrite with run. Qed.

Lemma renderNoPoints_run (w : World) :
  renderNoPoints w
  = Build_Run (Normal tt)
      (with_this (set_noPointsComponent (Some (NoPointsView (filterType (this w))))) w)
      [render (NoPointsView (filterType (this w))) None].
Proof. unfold renderNoPoints. now autorewrite with run. Qed.

(** *** The three outcomes of [#renderBoard] *)

Lemma renderBoard_loading (w : World) :
  isLoading (this w) = true ->
  renderBoard w
  = Build_Run (Normal tt)
      (with_this (set_filterType (filterModel_filter (models w))) w)
      [render LoadingView (Some AFTERBEGIN)].
Proof.
  intros Hl. unfold renderBoard.
  rewrite (bind_normal _ _ _ _ _ _ (get_points_run w)), after_nil, bind_self.
  cbn [with_this this set_filterType isLoading]. rewrite Hl. reflexivity.
Qed.

Lemma renderBoard_empty (w : World) :
  isLoading (this w) = false ->
  filtered_then_sorted (models w) (currentSortType (this w)) = [] ->
  renderBoard w
  = Build_Run (Normal tt)
      (with_this (fun b => set_noPointsComponent
                             (Some (NoPointsView (filterModel_filter (models w))))
                             (set_filterType (filterModel_filter (models w)) b)) w)
      [render (NoPointsView (filterModel_filter (models w))) None].
Proof.
  intros Hl Hv. unfold renderBoard.
  rewrite (bind_normal _ _ _ _ _ _ (get_points_run w)), after_nil, bind_self.
  cbn [with_this this set_filterType isLoading]. rewrite Hl, Hv. reflexivity.
Qed.

Lemma renderBoard_list (w : World) :
  isLoading (this w) = false ->
  filtered_then_sorted (models w) (currentSortType (this w)) <> [] ->
  renderBoard w
  = Build_Run (Normal tt)
      {| models := models w;
         this :=
           set_pointPresenters
             (register (filtered_then_sorted (models w) (currentSortType (this w)))
                (next_ref w) (pointPresenters (this w)))
             (set_sortComponent (Some (SortView (currentSortType (this w))))
                (set_filterType (filterModel_filter (models w)) (this w)));
         next_ref :=
           List.length (filtered_then_sorted (models w) (currentSortType (this w)))
           + next_ref w |}
      (render (SortView (currentSortType (this w))) (Some AFTERBEGIN)
       :: render EventListView None
       :: point_presenter_calls (models w) (next_ref w)
            (filtered_then_sorted (models w) (currentSortType (this w)))).
Proof.
  intros Hl Hv. unfold renderBoard.
  rewrite (bind_normal _ _ _ _ _ _ (get_points_run w)), after_nil, bind_self.
  cbn [with_this this set_filterType isLoading]. rewrite Hl.
  destruct (filtered_then_sorted (models w) (currentSortType (this w)))
    as [|point view] eqn:Ev; [contradiction |].
  cbn [List.length Nat.eqb].
  rewrite (bind_normal _ _ _ _ _ _ (renderSort_run _)).
  rewrite (bind_normal _ _ _ _ _ _ (get_points_run _)), after_nil.
  cbn [models this with_this set_sortComponent set_filterType currentSortType].
  rewrite Ev. unfold renderPointList. rewrite bind_call, forEach_renderPoint.
  reflexivity.
Qed.

(** C3. For every state of the points model and the filter model, the
    [points] getter returns the points collection with the current filter
    applied, and, when the current sort type is DAY, PRICE or TIME, sorted
    with [sortDay], [sortPrice] or [sortTime]: the result is a rearrangement
    of the filtered points and, whenever the comparator is a consistent
    comparison function for them, they stand in the comparator's order,
    equal ones in the order the filter left them. The array is computed anew
    from the models at each call; the getter makes no call and only copies
    the filter into [#filterType]. *)
Theorem points_getter_filters_then_sorts (w : World) :
  let filtered := filter (filterModel_filter (models w)) (pointsModel_points (models w)) in
  let r := get_points w in
  exists view,
    completion r = Normal view /\
    calls r = [] /\
    this (world r) = set_filterType (filterModel_filter (models w)) (this w) /\
    Permutation filtered view /\
    (forall compareFn,
        comparator (currentSortType (this w)) = Some compareFn ->
        consistent compareFn filtered ->
        view = Array_sort compareFn filtered /\
        StronglySorted (precedes compareFn) view /\
        (forall point, In point filtered ->
           equals_of compareFn point view = equals_of compareFn point filtered)) /\
    (currentSortType (this w) = DAY -> consistent sortDay filtered ->
     StronglySorted (precedes sortDay) view) /\
    (currentSortType (this w) = PRICE -> consistent sortPrice filtered ->
     StronglySorted (precedes sortPrice) view) /\
    (currentSortType (this w) = TIME -> consistent sortTime filtered ->
     StronglySorted (precedes sortTime) view) /\
    (comparator (currentSortType (this w)) = None -> view = filtered).
Proof.
  intros filtered r. subst r. rewrite get_points_run. cbn [completion calls world].
  exists (filtered_then_sorted (models w) (currentSortType (this w))).
  unfold filtered_then_sorted; fold filtered.
  split; [reflexivity |]. split; [reflexivity |]. split; [reflexivity |].
  split; [| split; [| repeat split]].
  - destruct (comparator (currentSortType (this w)));
      [apply Array_sort_perm | apply Permutation_refl].
  - intros compareFn Hcmp Hc. rewrite Hcmp. split; [reflexivity |].
    split; [apply Array_sort_sorted, Hc |].
    intros point Hin. apply Array_sort_stable.
    apply (consistent_incl compareFn filtered); [| exact Hc].
    intros z [<- | Hz]; assumption.
  - intros E Hc; rewrite E. apply Array_sort_sorted, Hc.
  - intros E Hc; rewrite E. apply Array_sort_sorted, Hc.
  - intros E Hc; rewrite E. apply Array_sort_sorted, Hc.
  - intros E; rewrite E; reflexivity.
Qed.

(** C6. [#handleViewAction] turns UPDATE_POINT into exactly one call of
    [pointsModel.updatePoint], ADD_POINT into exactly one call of
    [pointsModel.addPoint] and DELETE_POINT into exactly one call of
    [pointsModel.deletePoint], each with the update type and the payload it
    was given; any other action type makes no call at all. The presenter's
    own state is left as it was in every case. *)
Theorem handleViewAction_dispatches (updateType : UpdateType) (update : Point) (w : World) :
  handleViewAction UPDATE_POINT updateType update w
    = Build_Run (Normal tt) w [pointsModel_updatePoint updateType update] /\
  handleViewAction ADD_POINT updateType update w
    = Build_Run (Normal tt) w [pointsModel_addPoint updateType update] /\
  handleViewAction DELETE_POINT updateType update w
    = Build_Run (Normal tt) w [pointsModel_deletePoint updateType update] /\
  (forall actionType,
      actionType <> UPDATE_POINT -> actionType <> ADD_POINT -> actionType <> DELETE_POINT ->
      handleViewAction actionType updateType update w = Build_Run (Normal tt) w []).
Proof.
  repeat split.
  intros [ | | | other] Hu Ha Hd; try contradiction; reflexivity.
Qed.

(** C8. A PATCH event that carries a point whose id has a presenter in the
    map re-initialises that presenter with the new data and does nothing
    else: one call, to that presenter; the map, the sort type and every other
    field are what they were, so the board is not cleared and no other
    presenter is touched. *)
Theorem patch_event_reinitialises_one_presenter (point : Point) (r : Ref) (w : World) :
  Map_get (id point) (pointPresenters (this w)) = Some r ->
  handleModelEvent PATCH (PointPayload point) w
  = Build_Run (Normal tt) w [PointPresenter_init r point].
Proof.
  intros Hget. unfold handleModelEvent, pointPresenter_init.
  rewrite bind_self, Hget. reflexivity.
Qed.

(** [#renderBoard] always completes normally; it leaves the models, the
    sort type, the new-point presenter and the loading flag as they were. *)
Lemma renderBoard_normal (w : World) :
  completion (renderBoard w) = Normal tt /\
  currentSortType (this (world (renderBoard w))) = currentSortType (this w) /\
  newPointPresenter (this (world (renderBoard w))) = newPointPresenter (this w) /\
  isLoading (this (world (renderBoard w))) = isLoading (this w) /\
  models (world (renderBoard w)) = models w.
Proof.
  destruct (isLoading (this w)) eqn:Hl.
  - rewrite (renderBoard_loading w Hl). cbn. now rewrite Hl.
  - destruct (filtered_then_sorted (models w) (currentSortType (this w))) eqn:Ev.
    + rewrite (renderBoard_empty w Hl Ev). cbn. now rewrite Hl.
    + rewrite (renderBoard_list w Hl) by (rewrite Ev; discriminate).
      cbn. now rewrite Hl.
Qed.

(** What one run of [#renderBoard] shows. *)
Lemma renderBoard_display (w : World) :
  display_states (calls (renderBoard w))
  = [if isLoading (this w) then ShowLoading
     else match filtered_then_sorted (models w) (currentSortType (this w)) with
          | [] => ShowEmpty
          | _ :: _ => ShowList
          end].
Proof.
  destruct (isLoading (this w)) eqn:Hl.
  - now rewrite (renderBoard_loading w Hl).
  - destruct (filtered_then_sorted (models w) (currentSortType (this w))) eqn:Ev.
    + now rewrite (renderBoard_empty w Hl Ev).
    + rewrite (renderBoard_list w Hl) by (rewrite Ev; discriminate).
      cbn [calls display_states shows].
      now rewrite display_states_point_presenter_calls.
Qed.

(** An INIT event without offers or without destinations: the loading view
    goes, the error view comes, and that is all. *)
Lemma init_event_failed_run (data : Payload) (w : World) :
  offerModel_offersByType (models w) = [] \/ destinationModel_destinations (models w) = [] ->
  handleModelEvent INIT data w
  = Build_Run (Normal tt) (with_this (set_isLoading false) w)
      [remove (Some LoadingView); render ErrorView (Some AFTERBEGIN)].
Proof.
  intros Hfail. unfold handleModelEvent.
  rewrite bind_modify, bind_call, bind_read_models.
  cbn [with_this models].
  assert (E : Nat.eqb (List.length (offerModel_offersByType (models w))) 0
              || Nat.eqb (List.length (destinationModel_destinations (models w))) 0 = true).
  { destruct Hfail as [-> | ->]; [reflexivity | apply orb_true_r]. }
  rewrite E. reflexivity.
Qed.

(** C4. Every run of [#renderBoard] shows exactly one display state: the
    loading view while loading is in progress (whatever the points are);
    otherwise the no-points view when the filtered and sorted list is empty;
    otherwise the sort control and the list, with one point presenter created
    and initialised per visible point, in the order of the view array. *)
Theorem renderBoard_shows_one_display_state (w : World) :
  let view := filtered_then_sorted (models w) (currentSortType (this w)) in
  let r := renderBoard w in
  completion r = Normal tt /\
  display_states (calls r)
    = [if isLoading (this w) then ShowLoading
       else match view with [] => ShowEmpty | _ :: _ => ShowList end] /\
  calls r
    = (if isLoading (this w) then [render LoadingView (Some AFTERBEGIN)]
       else match view with
            | [] => [render (NoPointsView (filterModel_filter (models w))) None]
            | _ :: _ =>
                render (SortView (currentSortType (this w))) (Some AFTERBEGIN)
                :: render EventListView None
                :: point_presenter_calls (models w) (next_ref w) view
            end) /\
  map snd (created_presenters (calls r)) = (if isLoading (this w) then [] else view).
Proof.
  intros view r. subst r view.
  split; [apply renderBoard_normal |].
  split; [apply renderBoard_display |].
  destruct (isLoading (this w)) eqn:Hl.
  - rewrite (renderBoard_loading w Hl). split; reflexivity.
  - destruct (filtered_then_sorted (models w) (currentSortType (this w)))
      as [|point view'] eqn:Ev.
    + rewrite (renderBoard_empty w Hl Ev). split; reflexivity.
    + rewrite (renderBoard_list w Hl) by (rewrite Ev; discriminate).
      rewrite Ev. cbn [calls]. split; [reflexivity |].
      change (created_presenters (render (SortView (currentSortType (this w))) (Some AFTERBEGIN)
                :: render EventListView None
                :: point_presenter_calls (models w) (next_ref w) (point :: view')))
        with (created_presenters (point_presenter_calls (models w) (next_ref w) (point :: view'))).
      apply created_presenters_point_presenter_calls.
Qed.

(** C2. On an INIT event the presenter stops loading and removes the loading
    view. When the offers or the destinations are missing it then renders the
    error view and nothing else: no new-point presenter is created and the
    board is not rendered. Otherwise it creates the new-point presenter and
    renders the board, which shows the list or the no-points view. *)
Theorem init_event_renders_error_or_board (data : Payload) (w : World) :
  let ms := models w in
  let r := handleModelEvent INIT data w in
  (offerModel_offersByType ms = [] \/ destinationModel_destinations ms = [] ->
   r = Build_Run (Normal tt) (with_this (set_isLoading false) w)
         [remove (Some LoadingView); render ErrorView (Some AFTERBEGIN)]) /\
  (offerModel_offersByType ms <> [] -> destinationModel_destinations ms <> [] ->
   let ready :=
     {| models := ms;
        this := set_newPointPresenter (Some (next_ref w)) (set_isLoading false (this w));
        next_ref := S (next_ref w) |} in
   r = after [remove (Some LoadingView);
              new_NewPointPresenter (next_ref w) (destinationModel_destinations ms)
                (destinationModel_destinationNames ms)]
             (renderBoard ready) /\
   completion r = Normal tt /\
   newPointPresenter (this (world r)) = Some (next_ref w) /\
   (display_states (calls r) = [ShowList] \/ display_states (calls r) = [ShowEmpty])).
Proof.
  intros ms r. subst r ms. split.
  - apply init_event_failed_run.
  - intros Ho Hd. unfold handleModelEvent.
    rewrite bind_modify, bind_call, bind_read_models.
    cbn [with_this models].
    destruct (offerModel_offersByType (models w)) as [|o os] eqn:Eo; [contradiction |].
    destruct (destinationModel_destinations (models w)) as [|d ds] eqn:Ed; [contradiction |].
    cbn [List.length Nat.eqb orb].
    rewrite bind_new_ref, bind_call, bind_modify, after_after.
    unfold with_this. cbn [models this next_ref app].
    remember {| models := models w;
                this := set_newPointPresenter (Some (next_ref w)) (set_isLoading false (this w));
                next_ref := S (next_ref w) |} as ready eqn:Er.
    split; [reflexivity |].
    assert (Hl : isLoading (this ready) = false) by (subst ready; reflexivity).
    assert (Hn : newPointPresenter (this ready) = Some (next_ref w)) by (subst ready; reflexivity).
    pose proof (renderBoard_display ready) as Hs.
    pose proof (renderBoard_normal ready) as (Hc & _ & Hkeep & _ & _).
    rewrite Hl in Hs.
    unfold after; cbn [completion world calls app display_states shows].
    split; [exact Hc |]. split; [now rewrite Hkeep |].
    rewrite Hs.
    destruct (filtered_then_sorted (models ready) (currentSortType (this ready)));
      [right | left]; reflexivity.
Qed.

(** *** Clearing, then rendering *)

(** [#clearBoard(...)] followed by [#renderBoard()]: the board is rendered
    on the cleared world when there is a new-point presenter, and the run
    stops at the end of [#clearBoard] when there is none. *)
Lemma clear_then_render_run (resetSortType : bool) (w : World) :
  (clearBoard resetSortType ;; renderBoard) w
  = match newPointPresenter (this w) with
    | Some _ => after (clearBoard_calls (this w)) (renderBoard (cleared resetSortType w))
    | None => Build_Run (Throw null_destroy) (cleared resetSortType w) (clearBoard_calls (this w))
    end.
Proof.
  pose proof (clearBoard_run resetSortType w) as Hc.
  destruct (newPointPresenter (this w)).
  - rewrite (bind_normal _ _ _ _ _ _ Hc). reflexivity.
  - rewrite (bind_thrown _ _ _ _ _ _ Hc). reflexivity.
Qed.

(** With a new-point presenter in place, a MINOR or MAJOR event destroys
    every child presenter, empties the map and renders the board anew on the
    cleared world; MAJOR resets the sort type to DAY, MINOR keeps it. *)
Lemma minor_major_event_rerenders (data : Payload) (w : World) (np : Ref) :
  newPointPresenter (this w) = Some np ->
  (handleModelEvent MINOR data w
   = after (clearBoard_calls (this w)) (renderBoard (cleared false w)) /\
   completion (handleModelEvent MINOR data w) = Normal tt /\
   currentSortType (this (world (handleModelEvent MINOR data w))) = currentSortType (this w)) /\
  (handleModelEvent MAJOR data w
   = after (clearBoard_calls (this w)) (renderBoard (cleared true w)) /\
   completion (handleModelEvent MAJOR data w) = Normal tt /\
   currentSortType (this (world (handleModelEvent MAJOR data w))) = DAY) /\
  pointPresenters (this (cleared false w)) = [] /\
  pointPresenters (this (cleared true w)) = [] /\
  (forall entry, In entry (pointPresenters (this w)) ->
                 In (PointPresenter_destroy (snd entry)) (clearBoard_calls (this w))).
Proof.
  intros Hnp. unfold handleModelEvent.
  rewrite !clear_then_render_run, Hnp.
  pose proof (renderBoard_normal (cleared false w)) as (Hc1 & Hs1 & _).
  pose proof (renderBoard_normal (cleared true w)) as (Hc2 & Hs2 & _).
  unfold after; cbn [completion world].
  repeat split; try assumption.
  intros entry Hin. unfold clearBoard_calls. apply in_or_app. left.
  apply (in_map (fun e => PointPresenter_destroy (snd e))), Hin.
Qed.

(** C9. A MINOR or MAJOR event that arrives while there is no new-point
    presenter makes [#clearBoard] call [destroy] on [null]: the handler
    throws a [TypeError] after the clearing calls, and renders nothing. That
    state needs no INIT to have succeeded: it is the state of a presenter
    that was just constructed, and the state an INIT event leaves when the
    offers or the destinations are missing. *)
Theorem event_without_new_point_presenter_throws
  (updateType : UpdateType) (data : Payload) (ms : Models) :
  updateType = MINOR \/ updateType = MAJOR ->
  (forall w, newPointPresenter (this w) = None ->
     let r := handleModelEvent updateType data w in
     completion r = Throw null_destroy /\
     calls r = clearBoard_calls (this w) /\
     existsb renders (calls r) = false) /\
  completion (handleModelEvent updateType data (constructor ms)) = Throw null_destroy /\
  (offerModel_offersByType ms = [] \/ destinationModel_destinations ms = [] ->
   forall d,
     completion (handleModelEvent updateType data
                   (world (handleModelEvent INIT d (constructor ms))))
     = Throw null_destroy).
Proof.
  intros Hu.
  assert (General : forall w, newPointPresenter (this w) = None ->
     completion (handleModelEvent updateType data w) = Throw null_destroy /\
     calls (handleModelEvent updateType data w) = clearBoard_calls (this w) /\
     existsb renders (calls (handleModelEvent updateType data w)) = false).
  { intros w Hnone.
    destruct Hu as [-> | ->]; unfold handleModelEvent;
      rewrite clear_then_render_run, Hnone; cbn [completion calls];
      (repeat split; [apply clearBoard_calls_render_nothing]). }
  split; [exact General |]. split.
  - apply General. reflexivity.
  - intros Hfail d. apply General.
    assert (Hms : offerModel_offersByType (models (constructor ms)) = []
                  \/ destinationModel_destinations (models (constructor ms)) = [])
      by exact Hfail.
    rewrite (init_event_failed_run d (constructor ms) Hms). reflexivity.
Qed.

(** C10. Choosing the sort type that is already current changes nothing:
    the handler returns at once, with no call made and every field (sort
    type, presenter map, views) as it was. Hence choosing a sort type a
    second time adds nothing to choosing it once. *)
Theorem sort_type_change_to_current_is_noop (sortType : SortType) (w : World) :
  handleSortTypeChange (currentSortType (this w)) w = Build_Run (Normal tt) w [] /\
  (let once := handleSortTypeChange sortType w in
   handleSortTypeChange sortType (world once) = Build_Run (Normal tt) (world once) []).
Proof.
  assert (Same : forall w', currentSortType (this w') = sortType ->
                            handleSortTypeChange sortType w' = Build_Run (Normal tt) w' []).
  { intros w' E. unfold handleSortTypeChange.
    rewrite bind_self, E, SortType_eqb_refl. reflexivity. }
  split.
  - unfold handleSortTypeChange. rewrite bind_self, SortType_eqb_refl. reflexivity.
  - intros once. apply Same. subst once.
    unfold handleSortTypeChange. rewrite bind_self.
    destruct (SortType_eqb (currentSortType (this w)) sortType) eqn:E.
    + apply SortType_eqb_eq in E. exact E.
    + rewrite bind_modify, clear_then_render_run.
      cbn [with_this this set_currentSortType newPointPresenter].
      destruct (newPointPresenter (this w)).
      * unfold after; cbn [world].
        pose proof (renderBoard_normal
                      (cleared false (with_this (set_currentSortType sortType) w)))
          as (_ & Hs & _).
        rewrite Hs. reflexivity.
      * reflexivity.
Qed.

(** *** Notifications *)

(** A notification first calls the observers registered before the
    presenter, then the presenter's handler. *)
Lemma notify_observers (updateType : UpdateType) (data : Payload) (os : list Observer) :
  ~ In BoardPresenter_handleModelEvent os ->
  forall w : World,
    forEach (fun o =>
               match o with
               | BoardPresenter_handleModelEvent => handleModelEvent updateType data
               | other_observer name => call (call_observer name updateType data)
               end)
            (os ++ [BoardPresenter_handleModelEvent]) w
    = after (external_calls updateType data os) (handleModelEvent updateType data w).
Proof.
  induction os as [|o os IH]; intros Hfresh w.
  - cbn [app forEach external_calls]. now rewrite bind_ret_tt, after_nil.
  - destruct o as [|name].
    + exfalso. apply Hfresh. now left.
    + cbn [app forEach external_calls].
      rewrite bind_call, IH, after_after by (intros Hin; apply Hfresh; now right).
      reflexivity.
Qed.

(** C7. Constructing the presenter registers its model-event handler as an
    observer of each of the four models (points, filter, offers,
    destinations). From then on a notification of any of them calls the
    handler with the update type and the payload, after the observers that
    were registered before it. *)
Theorem constructor_registers_on_all_models (ms : Models) (m : ModelName) :
  In BoardPresenter_handleModelEvent (observers m (models (constructor ms))) /\
  ((forall m', ~ In BoardPresenter_handleModelEvent (observers m' ms)) ->
   observers m (models (constructor ms))
   = observers m ms ++ [BoardPresenter_handleModelEvent] /\
   forall updateType data,
     notify m updateType data (constructor ms)
     = after (external_calls updateType data (observers m ms))
             (handleModelEvent updateType data (constructor ms))).
Proof.
  split.
  - unfold constructor; cbn [models].
    destruct m;
      repeat first [ apply addObserver_registers | apply addObserver_keeps ].
  - intros Hfresh.
    assert (E : observers m (models (constructor ms))
                = observers m ms ++ [BoardPresenter_handleModelEvent]).
    { unfold constructor; cbn [models].
      rewrite !observers_addObserver.
      destruct m; cbn [ModelName_eqb andb];
        rewrite ?existsb_Observer_eqb_false by apply Hfresh; reflexivity. }
    split; [exact E |].
    intros updateType data. unfold notify.
    rewrite bind_read_models, E.
    apply notify_observers, Hfresh.
Qed.

End BoardPresenterProperties.

(** ** The properties on the sample data *)

Section Samples.

Local Abbreviation handleModelEvent := (handleModelEvent sample_filter by_day by_price by_time).
Local Abbreviation get_points := (get_points sample_filter by_day by_price by_time).
Local Abbreviation notify := (notify sample_filter by_day by_price by_time).

(** C5. A MINOR or a MAJOR event that reaches a presenter which has been
    constructed but has seen no INIT event yet does not render the board
    again: after the clearing calls the handler throws, on the [null]
    new-point presenter, and nothing is rendered. *)
Theorem minor_major_event_before_init_renders_nothing :
  let fresh := constructor sample_models in
  let minor := handleModelEvent MINOR NoPayload fresh in
  let major := handleModelEvent MAJOR (FilterPayload (OTHER_FILTER "future")) fresh in
  completion minor = Throw null_destroy /\
  calls minor = [remove None; remove None; remove (Some LoadingView)] /\
  display_states (calls minor) = [] /\
  completion major = Throw null_destroy /\
  calls major = [remove None; remove None; remove (Some LoadingView)] /\
  display_states (calls major) = [].
Proof.
  intros fresh minor major.
  assert (Hnone : newPointPresenter (this fresh) = None) by reflexivity.
  subst minor major. unfold handleModelEvent.
  rewrite !clear_then_render_run, Hnone.
  repeat split.
Qed.

(** A few runs on the sample data. *)

Example past_filter_with_three_points_is_enabled :
  input_attributes
    (FilterView.createFilterItemTemplate
       {| FilterView.type := "past"; FilterView.count := 3 |} "everything")
  = ["id"; "class"; "type"; "name"; "value"].
Proof. reflexivity. Qed.

Example current_empty_filter_is_checked_and_disabled :
  input_attributes
    (FilterView.createFilterItemTemplate
       {| FilterView.type := "future"; FilterView.count := 0 |} "future")
  = ["id"; "class"; "type"; "name"; "value"; "checked"; "disabled"].
Proof. reflexivity. Qed.

(** Points of equal price keep their order: the sort is stable. *)
Example sort_by_price_is_stable :
  map id (Array_sort by_price [point_a; point_b; point_c]) = ["b"; "a"; "c"].
Proof. reflexivity. Qed.

Example loaded_board_has_three_presenters :
  pointPresenters (this loaded_world) = [("b", 1); ("a", 2); ("c", 3)] /\
  newPointPresenter (this loaded_world) = Some 0.
Proof. split; reflexivity. Qed.

(** Choosing the order by duration on the loaded board destroys the three
    presenters and creates three new ones, in the new order. *)
Example sort_by_time_redraws_the_board :
  let r := handleSortTypeChange sample_filter by_day by_price by_time TIME loaded_world in
  completion r = Normal tt /\
  display_states (calls r) = [ShowList] /\
  map (fun c => id (snd c)) (created_presenters (calls r)) = ["c"; "b"; "a"] /\
  pointPresenters (this (world r)) = [("c", 4); ("b", 5); ("a", 6)].
Proof. repeat split. Qed.

(** A failed load leaves the error view on the page. *)
Example failed_load_shows_the_error_view :
  display_states (calls (handleModelEvent INIT NoPayload (constructor failed_models)))
  = [ShowError].
Proof. reflexivity. Qed.

Lemma by_day_consistent (values : list Point) : consistent by_day values.
Proof.
  unfold consistent, by_day. intros a b c _ _ _. repeat split; lia.
Qed.

Lemma by_time_consistent (values : list Point) : consistent by_time values.
Proof.
  unfold consistent, by_time. intros a b c _ _ _. repeat split; lia.
Qed.

Lemma createFilterItemTemplate_disabled_witness :
  quote_free "future" = true /\
  (input_carries "disabled"
     (FilterView.createFilterItemTemplate
        {| FilterView.type := "future"; FilterView.count := 0 |} "everything") = true
   <-> 0%Z = 0%Z).
Proof.
  split; [reflexivity |].
  apply (createFilterItemTemplate_disabled_iff_zero
           {| FilterView.type := "future"; FilterView.count := 0 |} "everything").
  reflexivity.
Defined.

Lemma patch_event_witness :
  Map_get (id point_b) (pointPresenters (this loaded_world)) = Some 1 /\
  handleModelEvent PATCH (PointPayload point_b) loaded_world
  = Build_Run (Normal tt) loaded_world [PointPresenter_init 1 point_b].
Proof.
  split; [reflexivity |].
  apply (patch_event_reinitialises_one_presenter sample_filter by_day by_price by_time
           point_b 1 loaded_world).
  reflexivity.
Defined.

Lemma event_without_new_point_presenter_witness :
  (MINOR = MINOR \/ MINOR = MAJOR) /\
  completion (handleModelEvent MINOR NoPayload (constructor failed_models)) = Throw null_destroy /\
  completion (handleModelEvent MINOR NoPayload
                (world (handleModelEvent INIT NoPayload (constructor failed_models))))
  = Throw null_destroy.
Proof.
  pose proof (event_without_new_point_presenter_throws sample_filter by_day by_price by_time
                MINOR NoPayload failed_models (or_introl eq_refl)) as (_ & Hfresh & Hfailed).
  split; [left; reflexivity |].
  split; [exact Hfresh |].
  apply Hfailed. left. reflexivity.
Defined.

Lemma points_getter_witness :
  comparator by_day by_price by_time (currentSortType (this loaded_world)) = Some by_day /\
  consistent by_day
    (sample_filter (filterModel_filter (models loaded_world))
       (pointsModel_points (models loaded_world))) /\
  completion (get_points loaded_world) = Normal [point_b; point_a; point_c] /\
  StronglySorted (precedes by_day) [point_b; point_a; point_c].
Proof.
  destruct (points_getter_filters_then_sorts sample_filter by_day by_price by_time loaded_world)
    as (view & Hc & _ & _ & _ & Hsorted & _).
  destruct (Hsorted by_day eq_refl (by_day_consistent _)) as (Hview & Hs & _).
  split; [reflexivity |]. split; [apply by_day_consistent |].
  split; [reflexivity |].
  rewrite Hview in Hs. exact Hs.
Defined.

Lemma init_event_witness :
  (offerModel_offersByType failed_models = [] \/ destinationModel_destinations failed_models = []) /\
  calls (handleModelEvent INIT NoPayload (constructor failed_models))
  = [remove (Some LoadingView); render ErrorView (Some AFTERBEGIN)] /\
  offerModel_offersByType sample_models <> [] /\
  destinationModel_destinations sample_models <> [] /\
  completion (handleModelEvent INIT NoPayload (constructor sample_models)) = Normal tt.
Proof.
  assert (Ho : offerModel_offersByType sample_models <> []) by discriminate.
  assert (Hd : destinationModel_destinations sample_models <> []) by discriminate.
  destruct (init_event_renders_error_or_board sample_filter by_day by_price by_time
              NoPayload (constructor failed_models)) as [Herr _].
  destruct (init_event_renders_error_or_board sample_filter by_day by_price by_time
              NoPayload (constructor sample_models)) as [_ Hboard].
  split; [left; reflexivity |].
  split; [rewrite (Herr (or_introl eq_refl)); reflexivity |].
  split; [exact Ho |]. split; [exact Hd |].
  exact (proj1 (proj2 (Hboard Ho Hd))).
Defined.

Lemma constructor_registers_witness :
  (forall m', ~ In BoardPresenter_handleModelEvent (observers m' sample_models)) /\
  observers filterModel (models (constructor sample_models))
  = [other_observer "FilterPresenter"; BoardPresenter_handleModelEvent] /\
  notify filterModel MAJOR (FilterPayload EVERYTHING) (constructor sample_models)
  = after [call_observer "FilterPresenter" MAJOR (FilterPayload EVERYTHING)]
          (handleModelEvent MAJOR (FilterPayload EVERYTHING) (constructor sample_models)).
Proof.
  assert (Hfresh : forall m', ~ In BoardPresenter_handleModelEvent (observers m' sample_models)).
  { intros [ | | | ]; simpl; intuition discriminate. }
  destruct (constructor_registers_on_all_models sample_filter by_day by_price by_time
              sample_models filterModel) as [_ Hreg].
  destruct (Hreg Hfresh) as [Hobs Hnotify].
  split; [exact Hfresh |]. split; [exact Hobs |].
  exact (Hnotify MAJOR (FilterPayload EVERYTHING)).
Defined.

End Samples.

(** * Further properties of the filter view *)

Section FilterViewMarkup.
Import FilterView.

Lemma append_nil_r (s : string) : (s ++ "")%string = s.
Proof. induction s as [|c s IH]; simpl; [reflexivity | now rewrite IH]. Qed.

Lemma until_quote_value (t rest : string) :
  quote_free t = true -> until_quote (t ++ String dquote rest) = t.
Proof.
  induction t as [|c t IH]; simpl; intros Hq; [reflexivity |].
  apply andb_prop in Hq as [Hc Ht].
  destruct (Ascii.eqb c dquote); [discriminate | now rewrite IH].
Qed.

(** No tag starts inside a text without [<]. *)
Lemma inputs_tag_free (t rest : string) :
  tag_free t = true -> inputs (t ++ rest) = inputs rest.
Proof.
  induction t as [|c t IH]; intros Ht; [reflexivity |].
  simpl in Ht. apply andb_prop in Ht as [Hc Ht].
  cbn [String.append inputs strip_prefix].
  assert (E : Ascii.eqb "<"%char c = false).
  { rewrite Ascii.eqb_sym. now destruct (Ascii.eqb c "<"%char). }
  rewrite E. apply IH, Ht.
Qed.

Lemma createFilterItemTemplate_inputs_app
  (filter : FilterItem) (currentFilterType rest : string) :
  plain (type filter) = true ->
  inputs (createFilterItemTemplate filter currentFilterType ++ rest)
  = item_tokens filter currentFilterType :: inputs rest.
Proof.
  intros Hp. apply andb_prop in Hp as [Hq Ht].
  destruct filter as [ty n]; cbn [type count] in *.
  unfold createFilterItemTemplate, item_tokens, quoted, dq, nl.
  cbn [type count].
  destruct (String.eqb ty currentFilterType), (Z.eqb n 0).
  all: rewrite !append_assoc; cbn.
  all: f_equal;
    [ rewrite tag_tokens_value by assumption; cbn;
      rewrite tag_tokens_value by assumption; reflexivity
    | repeat (rewrite inputs_tag_free by assumption; cbn); reflexivity ].
Qed.

Lemma concat_cons (x : string) (xs : list string) :
  String.concat "" (x :: xs) = (x ++ String.concat "" xs)%string.
Proof. destruct xs; simpl; [now rewrite append_nil_r | reflexivity]. Qed.

Lemma concat_templates_inputs (filterItems : list FilterItem) (currentFilterType rest : string) :
  forallb (fun filter => plain (type filter)) filterItems = true ->
  inputs (String.concat ""
            (map (fun filter => createFilterItemTemplate filter currentFilterType) filterItems)
          ++ rest)
  = map (fun filter => item_tokens filter currentFilterType) filterItems ++ inputs rest.
Proof.
  induction filterItems as [|filter items IH]; intros Hp; [reflexivity |].
  cbn [forallb] in Hp. apply andb_prop in Hp as [Hf Hitems].
  cbn [map]. rewrite concat_cons, append_assoc.
  rewrite createFilterItemTemplate_inputs_app by exact Hf.
  rewrite IH by exact Hitems. reflexivity.
Qed.

(** The form holds the inputs of its items, in order, and no other input. *)
Lemma createFiltersTemplate_inputs (filterItems : list FilterItem) (currentFilterType : string) :
  forallb (fun filter => plain (type filter)) filterItems = true ->
  inputs (createFiltersTemplate filterItems currentFilterType)
  = map (fun filter => item_tokens filter currentFilterType) filterItems.
Proof.
  intros Hp. unfold createFiltersTemplate, quoted, dq, nl.
  rewrite !append_assoc. cbn -[createFilterItemTemplate item_tokens].
  rewrite concat_templates_inputs by exact Hp.
  cbn -[item_tokens]. apply app_nil_r.
Qed.

Lemma item_tokens_disabled (filter : FilterItem) (currentFilterType : string) :
  has_attribute "disabled" (item_tokens filter currentFilterType) = Z.eqb (count filter) 0.
Proof.
  unfold item_tokens, has_attribute, quoted, dq.
  destruct (String.eqb (type filter) currentFilterType), (Z.eqb (count filter) 0); reflexivity.
Qed.

Lemma item_tokens_checked (filter : FilterItem) (currentFilterType : string) :
  has_attribute "checked" (item_tokens filter currentFilterType)
  = String.eqb (type filter) currentFilterType.
Proof.
  unfold item_tokens, has_attribute, quoted, dq.
  destruct (String.eqb (type filter) currentFilterType), (Z.eqb (count filter) 0); reflexivity.
Qed.

Lemma item_tokens_values (filter : FilterItem) (currentFilterType : string) :
  quote_free (type filter) = true ->
  verbatim (type filter) = true ->
  attribute "value" (item_tokens filter currentFilterType) = Some (type filter) /\
  attribute "id" (item_tokens filter currentFilterType) = Some ("filter-" ++ type filter)%string /\
  attribute "type" (item_tokens filter currentFilterType) = Some "radio" /\
  attribute "name" (item_tokens filter currentFilterType) = Some "trip-filter".
Proof.
  intros Hq Hv. unfold item_tokens, attribute, quoted, dq.
  repeat split; cbn; rewrite ?until_quote_value by exact Hq; cbn; rewrite ?Hv; reflexivity.
Qed.

Lemma filter_current_NoDup (current : string) (types : list string) :
  NoDup types ->
  List.length (List.filter (fun t => String.eqb t current) types)
  = if existsb (fun t => String.eqb t current) types then 1 else 0.
Proof.
  induction 1 as [|t types Hnotin Hnodup IH]; [reflexivity |].
  cbn [List.filter existsb]. destruct (String.eqb t current) eqn:E.
  - apply String.eqb_eq in E. subst t. cbn [orb List.length]. f_equal.
    rewrite IH. destruct (existsb (fun t => String.eqb t current) types) eqn:Ex; [| reflexivity].
    apply existsb_exists in Ex as (x & Hin & Hx).
    apply String.eqb_eq in Hx. subst x. contradiction.
  - exact IH.
Qed.

(** X1. The radio input of a filter item carries [checked] if and only if
    the item's type is the current filter type. *)
Theorem createFilterItemTemplate_checked_iff_current
  (filter : FilterItem) (currentFilterType : string) :
  quote_free (type filter) = true ->
  input_carries "checked" (createFilterItemTemplate filter currentFilterType) = true
  <-> type filter = currentFilterType.
Proof.
  intros Hq. unfold input_carries.
  rewrite (createFilterItemTemplate_attributes _ _ Hq).
  rewrite <- String.eqb_eq.
  destruct (String.eqb (type filter) currentFilterType), (Z.eqb (count filter) 0);
    simpl; intuition congruence.
Qed.

(** X2. The markup of a filter item holds exactly one input: a radio button
    of the group [trip-filter] whose value is the item's type and whose id
    is the type after [filter-], for a type that a parser reads as it is
    written (no character reference in it); so the value a change event
    reads from the input is the type the item was rendered for. *)
Theorem createFilterItemTemplate_one_radio_input
  (filter : FilterItem) (currentFilterType : string) :
  plain (type filter) = true ->
  verbatim (type filter) = true ->
  exists tokens,
    inputs (createFilterItemTemplate filter currentFilterType) = [tokens] /\
    attribute "value" tokens = Some (type filter) /\
    attribute "id" tokens = Some ("filter-" ++ type filter)%string /\
    attribute "type" tokens = Some "radio" /\
    attribute "name" tokens = Some "trip-filter".
Proof.
  intros Hp Hv. exists (item_tokens filter currentFilterType). split.
  - rewrite <- (append_nil_r (createFilterItemTemplate filter currentFilterType)).
    now rewrite createFilterItemTemplate_inputs_app.
  - apply item_tokens_values; [now apply andb_prop in Hp | exact Hv].
Qed.

(** X3. The inputs of the filters form mirror the filter items, in order:
    there is one input per item, disabled exactly when its item's count is 0
    and checked exactly when its item's type is the current one; and when
    the types are read as they are written (no character reference in them),
    the values of the inputs are the items' types. An empty list of items
    gives a form without inputs. *)
Theorem createFiltersTemplate_inputs_mirror_items
  (filterItems : list FilterItem) (currentFilterType : string) :
  forallb (fun filter => plain (type filter)) filterItems = true ->
  let rendered := inputs (createFiltersTemplate filterItems currentFilterType) in
  List.length rendered = List.length filterItems /\
  map (has_attribute "disabled") rendered
    = map (fun filter => Z.eqb (count filter) 0) filterItems /\
  map (has_attribute "checked") rendered
    = map (fun filter => String.eqb (type filter) currentFilterType) filterItems /\
  (forallb (fun filter => verbatim (type filter)) filterItems = true ->
   map (attribute "value") rendered = map (fun filter => Some (type filter)) filterItems).
Proof.
  intros Hp rendered. subst rendered.
  rewrite (createFiltersTemplate_inputs _ _ Hp), !map_map, length_map.
  split; [reflexivity |]. split; [| split].
  - apply map_ext. intros filter. apply item_tokens_disabled.
  - apply map_ext. intros filter. apply item_tokens_checked.
  - intros Hv. apply map_ext_in. intros filter Hin.
    apply item_tokens_values.
    + rewrite forallb_forall in Hp. specialize (Hp filter Hin).
      now apply andb_prop in Hp.
    + rewrite forallb_forall in Hv. now apply Hv.
Qed.

(** X4. When the items' types are pairwise distinct, the form checks exactly
    one radio input if the current filter type is the type of an item, and
    none otherwise. *)
Theorem createFiltersTemplate_checks_at_most_one
  (filterItems : list FilterItem) (currentFilterType : string) :
  forallb (fun filter => plain (type filter)) filterItems = true ->
  NoDup (map type filterItems) ->
  List.length (List.filter (has_attribute "checked")
                 (inputs (createFiltersTemplate filterItems currentFilterType)))
  = if existsb (fun filter => String.eqb (type filter) currentFilterType) filterItems
    then 1 else 0.
Proof.
  intros Hp Hnodup.
  rewrite (createFiltersTemplate_inputs _ _ Hp).
  pose proof (filter_current_NoDup currentFilterType _ Hnodup) as Hcount.
  assert (Hf : forall items : list FilterItem,
             List.length (List.filter (has_attribute "checked")
                            (map (fun filter => item_tokens filter currentFilterType) items))
             = List.length (List.filter (fun t => String.eqb t currentFilterType)
                              (map type items))).
  { induction items as [|filter items IH]; [reflexivity |].
    cbn [map List.filter]. rewrite item_tokens_checked.
    destruct (String.eqb (type filter) currentFilterType); cbn [List.length]; now rewrite IH. }
  rewrite Hf, Hcount.
  assert (He : existsb (fun t => String.eqb t currentFilterType) (map type filterItems)
               = existsb (fun filter => String.eqb (type filter) currentFilterType) filterItems).
  { clear. induction filterItems as [|filter items IH]; [reflexivity |].
    cbn [map existsb]. now rewrite IH. }
  now rewrite He.
Qed.

(** X13. A change event on the radio input that the view renders for its
    i-th filter item hands the type of that item to the view's callback,
    when that type is read as it is written (no character reference in it). *)
Theorem filterTypeChangeHandler_reports_item_type
  (this : FilterViewClass.Fields) (i : nat) (filter : FilterItem) :
  forallb (fun filter => plain (type filter)) (FilterViewClass.filters this) = true ->
  nth_error (FilterViewClass.filters this) i = Some filter ->
  verbatim (type filter) = true ->
  exists tokens value,
    nth_error (inputs (FilterViewClass.template this)) i = Some tokens /\
    attribute "value" tokens = Some value /\
    FilterViewClass.filterTypeChangeHandler value
    = [FilterViewClass.evt_preventDefault; FilterViewClass.handleFilterTypeChange (type filter)].
Proof.
  intros Hp Hnth Hv.
  exists (item_tokens filter (FilterViewClass.currentFilterType this)), (type filter).
  unfold FilterViewClass.template.
  rewrite (createFiltersTemplate_inputs _ _ Hp), nth_error_map, Hnth.
  split; [reflexivity |]. split; [| reflexivity].
  apply item_tokens_values; [| exact Hv].
  rewrite forallb_forall in Hp.
  specialize (Hp filter (nth_error_In _ _ Hnth)). now apply andb_prop in Hp.
Qed.

End FilterViewMarkup.

(** * Further properties of the board presenter *)

(** ** The presenter map *)

Lemma Map_get_set_same {V} (key : string) (value : V) (m : list (string * V)) :
  Map_get key (Map_set key value m) = Some value.
Proof.
  induction m as [|[k v] m IH]; simpl.
  - now rewrite String.eqb_refl.
  - destruct (String.eqb k key) eqn:E; simpl; [now rewrite String.eqb_refl | now rewrite E].
Qed.

Lemma Map_get_set_other {V} (key key' : string) (value : V) (m : list (string * V)) :
  key <> key' -> Map_get key' (Map_set key value m) = Map_get key' m.
Proof.
  intros Hne. induction m as [|[k v] m IH]; simpl.
  - apply String.eqb_neq in Hne. now rewrite Hne.
  - destruct (String.eqb k key) eqn:E; simpl.
    + apply String.eqb_eq in E. subst k.
      apply String.eqb_neq in Hne. now rewrite Hne.
    + destruct (String.eqb k key'); [reflexivity | exact IH].
Qed.

Lemma Map_set_fresh {V} (key : string) (value : V) (m : list (string * V)) :
  ~ In key (map fst m) -> Map_set key value m = m ++ [(key, value)].
Proof.
  induction m as [|[k v] m IH]; simpl; intros Hfresh; [reflexivity |].
  destruct (String.eqb k key) eqn:E.
  - apply String.eqb_eq in E. exfalso. apply Hfresh. now left.
  - rewrite IH; [reflexivity |]. intros Hin. apply Hfresh. now right.
Qed.

Lemma Map_set_length {V} (key : string) (value : V) (m : list (string * V)) :
  List.length (Map_set key value m)
  = if existsb (fun entry => String.eqb (fst entry) key) m
    then List.length m else S (List.length m).
Proof.
  induction m as [|[k v] m IH]; simpl; [reflexivity |].
  destruct (String.eqb k key); simpl; [reflexivity |].
  rewrite IH. now destruct (existsb (fun entry => String.eqb (fst entry) key) m).
Qed.

Lemma Map_set_keeps_key {V} (key key' : string) (value : V) (m : list (string * V)) :
  existsb (fun entry => String.eqb (fst entry) key') m = true ->
  existsb (fun entry => String.eqb (fst entry) key') (Map_set key value m) = true.
Proof.
  induction m as [|[k v] m IH]; simpl; [discriminate |].
  destruct (String.eqb k key) eqn:E; simpl.
  - apply String.eqb_eq in E. subst k. trivial.
  - destruct (String.eqb k key'); simpl; [trivial | exact IH].
Qed.

Lemma Map_set_has_key {V} (key : string) (value : V) (m : list (string * V)) :
  existsb (fun entry => String.eqb (fst entry) key) (Map_set key value m) = true.
Proof.
  induction m as [|[k v] m IH]; simpl.
  - now rewrite String.eqb_refl.
  - destruct (String.eqb k key) eqn:E; simpl; [now rewrite String.eqb_refl | now rewrite E].
Qed.

(** A point of the list finds, under its id, a presenter registered for the
    list. *)
Lemma register_lookup (key : string) (points : list Point) :
  forall (r : Ref) (m : list (string * Ref)),
    existsb (fun point => String.eqb (id point) key) points = true ->
    exists ref, Map_get key (register points r m) = Some ref /\
                r <= ref < r + List.length points.
Proof.
  induction points as [|point points IH]; intros r m Hin; [discriminate |].
  cbn [register List.length].
  destruct (existsb (fun point => String.eqb (id point) key) points) eqn:Elater.
  - destruct (IH (S r) (Map_set (id point) r m) eq_refl) as (ref & Hget & Hrange).
    exists ref. split; [exact Hget | lia].
  - cbn [existsb] in Hin. rewrite Elater, orb_false_r in Hin.
    apply String.eqb_eq in Hin.
    exists r. split; [| lia].
    assert (Hframe : forall points' r' m',
               existsb (fun point => String.eqb (id point) key) points' = false ->
               Map_get key (register points' r' m') = Map_get key m').
    { clear. induction points' as [|q points' IH']; intros r' m' Hnone; [reflexivity |].
      cbn [existsb] in Hnone. apply orb_false_elim in Hnone as [Hq Hrest].
      cbn [register]. rewrite IH' by exact Hrest.
      apply Map_get_set_other. now apply String.eqb_neq. }
    rewrite Hframe by exact Elater.
    rewrite <- Hin. apply Map_get_set_same.
Qed.

(** Points with distinct ids, not yet in the map, are appended in order. *)
Lemma register_fresh (points : list Point) :
  forall (r : Ref) (m : list (string * Ref)),
    NoDup (map id points) ->
    (forall point, In point points -> ~ In (id point) (map fst m)) ->
    register points r m = m ++ combine (map id points) (seq r (List.length points)).
Proof.
  induction points as [|point points IH]; intros r m Hnodup Hfresh.
  - cbn. now rewrite app_nil_r.
  - cbn [register map List.length seq combine].
    inversion Hnodup as [|? ? Hnotin Hnodup']; subst.
    rewrite Map_set_fresh by (apply Hfresh; now left).
    rewrite IH; [now rewrite <- app_assoc | exact Hnodup' |].
    intros q Hq. rewrite map_app, in_app_iff. cbn [map fst In].
    intros [Hin | [Heq | []]].
    + apply (Hfresh q); [now right | exact Hin].
    + apply Hnotin. rewrite Heq. now apply in_map.
Qed.

Lemma register_length_le (points : list Point) :
  forall (r : Ref) (m : list (string * Ref)),
    List.length (register points r m) <= List.length m + List.length points.
Proof.
  induction points as [|point points IH]; intros r m; cbn [register List.length]; [lia |].
  specialize (IH (S r) (Map_set (id point) r m)).
  rewrite Map_set_length in IH.
  destruct (existsb (fun entry => String.eqb (fst entry) (id point)) m); lia.
Qed.

(** A point whose id is already in the map takes no new place in it. *)
Lemma register_length_taken (points : list Point) :
  forall (r : Ref) (m : list (string * Ref)),
    (exists point, In point points /\
                   existsb (fun entry => String.eqb (fst entry) (id point)) m = true) ->
    List.length (register points r m) < List.length m + List.length points.
Proof.
  induction points as [|point points IH]; intros r m (q & Hq & Htaken); [contradiction |].
  cbn [register List.length].
  destruct Hq as [-> | Hq].
  - pose proof (register_length_le points (S r) (Map_set (id q) r m)) as Hle.
    rewrite Map_set_length, Htaken in Hle. lia.
  - assert (Hlt : List.length (register points (S r) (Map_set (id point) r m))
                  < List.length (Map_set (id point) r m) + List.length points).
    { apply IH. exists q. split; [exact Hq | now apply Map_set_keeps_key]. }
    rewrite Map_set_length in Hlt.
    destruct (existsb (fun entry => String.eqb (fst entry) (id point)) m); lia.
Qed.

Lemma register_length_duplicate (points : list Point) :
  forall (r : Ref) (m : list (string * Ref)),
    ~ NoDup (map id points) ->
    List.length (register points r m) < List.length m + List.length points.
Proof.
  induction points as [|point points IH]; intros r m Hdup.
  - exfalso. apply Hdup. constructor.
  - cbn [register List.length].
    destruct (in_dec string_dec (id point) (map id points)) as [Hin | Hnotin].
    + apply in_map_iff in Hin as (q & Hid & Hq).
      assert (Hlt : List.length (register points (S r) (Map_set (id point) r m))
                    < List.length (Map_set (id point) r m) + List.length points).
      { apply register_length_taken. exists q. split; [exact Hq |].
        rewrite Hid. apply Map_set_has_key. }
      rewrite Map_set_length in Hlt.
      destruct (existsb (fun entry => String.eqb (fst entry) (id point)) m); lia.
    + assert (Hdup' : ~ NoDup (map id points)).
      { intros Hn. apply Hdup. cbn [map]. now constructor. }
      specialize (IH (S r) (Map_set (id point) r m) Hdup').
      rewrite Map_set_length in IH.
      destruct (existsb (fun entry => String.eqb (fst entry) (id point)) m); lia.
Qed.

(** ** What a run creates and destroys *)

Lemma created_presenters_calls (ms : Models) (points : list Point) : forall r : Ref,
  created_presenters (point_presenter_calls ms r points)
  = combine (seq r (List.length points)) points.
Proof.
  induction points as [|point points IH]; intros r; [reflexivity |].
  cbn [point_presenter_calls created_presenters List.length seq combine].
  now rewrite Nat.eqb_refl, IH.
Qed.

Lemma destroyed_presenters_calls (ms : Models) (points : list Point) : forall r : Ref,
  destroyed_presenters (point_presenter_calls ms r points) = [].
Proof.
  induction points as [|point points IH]; intros r; [reflexivity | apply IH].
Qed.

Lemma destroyed_presenters_app (cs cs' : list Call) :
  destroyed_presenters (cs ++ cs') = destroyed_presenters cs ++ destroyed_presenters cs'.
Proof.
  induction cs as [|c cs IH]; [reflexivity |].
  destruct c; cbn [app destroyed_presenters]; rewrite IH; reflexivity.
Qed.

Lemma destroyed_presenters_clearBoard (b : BoardPresenter) :
  destroyed_presenters (clearBoard_calls b) = map snd (pointPresenters b).
Proof.
  unfold clearBoard_calls. rewrite destroyed_presenters_app.
  assert (E : destroyed_presenters
                (map (fun entry => PointPresenter_destroy (snd entry)) (pointPresenters b))
              = map snd (pointPresenters b)).
  { induction (pointPresenters b) as [|e l IH]; [reflexivity |]. cbn. now rewrite IH. }
  rewrite E. destruct (noPointsComponent b), (newPointPresenter b); cbn; apply app_nil_r.
Qed.

Lemma created_presenters_clearBoard (b : BoardPresenter) (cs : list Call) :
  created_presenters (clearBoard_calls b ++ cs) = created_presenters cs.
Proof.
  unfold clearBoard_calls. rewrite <- !app_assoc.
  induction (pointPresenters b) as [|e l IH]; [| exact IH].
  destruct (noPointsComponent b), (newPointPresenter b); reflexivity.
Qed.

Lemma map_fst_combine_seq {A} (l : list A) : forall n,
  map fst (combine (seq n (List.length l)) l) = seq n (List.length l).
Proof. induction l as [|x l IH]; intros n; [reflexivity |]. cbn. now rewrite IH. Qed.

Lemma map_snd_combine_seq {A} (l : list A) : forall n,
  map snd (combine l (seq n (List.length l))) = seq n (List.length l).
Proof. induction l as [|x l IH]; intros n; [reflexivity |]. cbn. now rewrite IH. Qed.

Lemma map_snd_combine_refs {A} (l : list A) : forall n,
  map snd (combine (seq n (List.length l)) l) = l.
Proof. induction l as [|x l IH]; intros n; [reflexivity |]. cbn. now rewrite IH. Qed.

Lemma reset_presenters_app (cs cs' : list Call) :
  reset_presenters (cs ++ cs') = reset_presenters cs ++ reset_presenters cs'.
Proof.
  induction cs as [|c cs IH]; [reflexivity |].
  destruct c; cbn [app reset_presenters]; rewrite IH; reflexivity.
Qed.

(** [#handleModeChange] asks every presenter of the map to reset its view,
    in the order of the map, then destroys the new-point presenter; it
    changes no field. *)
Lemma handleModeChange_run (w : World) :
  handleModeChange w
  = Build_Run
      (match newPointPresenter (this w) with
       | Some _ => Normal tt
       | None => Throw null_destroy
       end)
      w
      (map (fun entry => PointPresenter_resetView (snd entry)) (pointPresenters (this w))
       ++ match newPointPresenter (this w) with
          | Some r => [NewPointPresenter_destroy r]
          | None => []
          end).
Proof.
  unfold handleModeChange. rewrite bind_self.
  rewrite (bind_normal _ _ _ _ _ _ (forEach_calls _ _ _)).
  unfold newPointPresenter_destroy. rewrite bind_self.
  destruct (newPointPresenter (this w)); unfold after; cbn; [reflexivity |].
  now rewrite app_nil_r.
Qed.

Section BoardPresenterLifecycle.

Variable filter : FilterType -> list Point -> list Point.
Variables sortDay sortPrice sortTime : Point -> Point -> Z.

Local Abbreviation renderBoard := (renderBoard filter sortDay sortPrice sortTime).
Local Abbreviation init := (init filter sortDay sortPrice sortTime).
Local Abbreviation handleModelEvent := (handleModelEvent filter sortDay sortPrice sortTime).
Local Abbreviation handleSortTypeChange := (handleSortTypeChange filter sortDay sortPrice sortTime).
Local Abbreviation filtered_then_sorted := (filtered_then_sorted filter sortDay sortPrice sortTime).
Local Abbreviation comparator := (comparator sortDay sortPrice sortTime).

(** The presenters one run of [#renderBoard] creates, the map it leaves, and
    that it destroys none. *)
Lemma renderBoard_effects (w : World) :
  let view := filtered_then_sorted (models w) (currentSortType (this w)) in
  created_presenters (calls (renderBoard w))
  = (if isLoading (this w) then []
     else combine (seq (next_ref w) (List.length view)) view) /\
  pointPresenters (this (world (renderBoard w)))
  = (if isLoading (this w) then pointPresenters (this w)
     else register view (next_ref w) (pointPresenters (this w))) /\
  destroyed_presenters (calls (renderBoard w)) = [].
Proof.
  intros view. subst view.
  destruct (isLoading (this w)) eqn:Hl.
  - rewrite (renderBoard_loading _ _ _ _ w Hl). repeat split.
  - destruct (filtered_then_sorted (models w) (currentSortType (this w))) eqn:Ev.
    + rewrite (renderBoard_empty _ _ _ _ w Hl Ev). repeat split.
    + rewrite (renderBoard_list _ _ _ _ w Hl) by (rewrite Ev; discriminate).
      rewrite Ev. cbn [calls world this set_pointPresenters pointPresenters].
      split; [| split; [reflexivity |]].
      * change (created_presenters (point_presenter_calls (models w) (next_ref w) (p :: l))
                = combine (seq (next_ref w) (List.length (p :: l))) (p :: l)).
        apply created_presenters_calls.
      * cbn [destroyed_presenters]. apply destroyed_presenters_calls.
Qed.

(** [#clearBoard] then [#renderBoard], with a new-point presenter in place:
    the old presenters are destroyed, and what is created and left is what
    [#renderBoard] makes of the cleared world. *)
Lemma clear_then_render_effects (resetSortType : bool) (w : World) (np : Ref) :
  newPointPresenter (this w) = Some np ->
  let r := (clearBoard resetSortType ;; renderBoard) w in
  let redrawn := renderBoard (cleared resetSortType w) in
  completion r = Normal tt /\
  world r = world redrawn /\
  destroyed_presenters (calls r) = map snd (pointPresenters (this w)) /\
  created_presenters (calls r) = created_presenters (calls redrawn).
Proof.
  intros Hnp r redrawn. subst r redrawn.
  rewrite clear_then_render_run, Hnp. unfold after. cbn [completion world calls].
  split; [apply renderBoard_normal |]. split; [reflexivity |]. split.
  - rewrite destroyed_presenters_app, destroyed_presenters_clearBoard.
    destruct (renderBoard_effects (cleared resetSortType w)) as (_ & _ & Hd).
    rewrite Hd. apply app_nil_r.
  - apply created_presenters_clearBoard.
Qed.

(** X5. A PATCH event whose payload is a point with no presenter under its
    id, or is no point at all, throws a [TypeError] without any call and
    without changing a field. A presenter that has rendered nothing yet has
    no presenter for any point. *)
Theorem patch_event_without_presenter_throws (w : World) :
  (forall point,
      Map_get (id point) (pointPresenters (this w)) = None ->
      handleModelEvent PATCH (PointPayload point) w = Build_Run (Throw undefined_init) w []) /\
  (forall f, handleModelEvent PATCH (FilterPayload f) w = Build_Run (Throw undefined_init) w []) /\
  (exists e, handleModelEvent PATCH NoPayload w = Build_Run (Throw e) w []) /\
  (forall ms point,
      completion (handleModelEvent PATCH (PointPayload point) (constructor ms))
      = Throw undefined_init).
Proof.
  unfold handleModelEvent, pointPresenter_init. repeat split.
  - intros point Hnone. rewrite bind_self, Hnone. reflexivity.
  - eexists. rewrite bind_self. reflexivity.
Qed.

(** X6. Once the board is rendered (loading is over), a PATCH event for any
    visible point, or for new data with the id of a visible point, completes
    normally: it initialises with the data one of the presenters that this
    rendering created, and changes nothing else. *)
Theorem rendered_point_can_be_patched (w : World) (point data : Point) :
  isLoading (this w) = false ->
  In point (filtered_then_sorted (models w) (currentSortType (this w))) ->
  id data = id point ->
  let board := renderBoard w in
  exists ref,
    handleModelEvent PATCH (PointPayload data) (world board)
    = Build_Run (Normal tt) (world board) [PointPresenter_init ref data] /\
    In ref (map fst (created_presenters (calls board))).
Proof.
  intros Hl Hin Hid board. subst board.
  destruct (renderBoard_effects w) as (Hcreated & Hmap & _).
  rewrite Hl in Hcreated, Hmap.
  set (view := filtered_then_sorted (models w) (currentSortType (this w))) in *.
  assert (Hex : existsb (fun q => String.eqb (id q) (id data)) view = true).
  { apply existsb_exists. exists point. split; [exact Hin |].
    rewrite Hid. apply String.eqb_refl. }
  destruct (register_lookup (id data) view (next_ref w) (pointPresenters (this w)) Hex)
    as (ref & Hget & Hrange).
  exists ref. split.
  - unfold handleModelEvent, pointPresenter_init.
    rewrite bind_self, Hmap, Hget. reflexivity.
  - rewrite Hcreated, map_fst_combine_seq. apply in_seq. lia.
Qed.

(** X7. On an empty presenter map and visible points with distinct ids, the
    presenters a following [#clearBoard] destroys are exactly those this
    [#renderBoard] created, in the order of their creation. *)
Theorem clearBoard_destroys_what_renderBoard_created (resetSortType : bool) (w : World) :
  pointPresenters (this w) = [] ->
  NoDup (map id (filtered_then_sorted (models w) (currentSortType (this w)))) ->
  let board := renderBoard w in
  destroyed_presenters (calls (clearBoard resetSortType (world board)))
  = map fst (created_presenters (calls board)).
Proof.
  intros Hempty Hnodup board. subst board.
  rewrite clearBoard_run. cbn [calls].
  rewrite destroyed_presenters_clearBoard.
  destruct (renderBoard_effects w) as (Hcreated & Hmap & _).
  rewrite Hcreated, Hmap, Hempty.
  destruct (isLoading (this w)); [reflexivity |].
  rewrite register_fresh by (trivial; intros ? _ []).
  cbn [app]. rewrite map_fst_combine_seq.
  pose proof (map_snd_combine_seq
                (map id (filtered_then_sorted (models w) (currentSortType (this w))))
                (next_ref w)) as E.
  now rewrite length_map in E.
Qed.

(** X8. Two visible points with the same id share one place in the presenter
    map: the board then creates more presenters than the map holds, and the
    next [#clearBoard] destroys fewer presenters than were created. *)
Theorem duplicate_id_orphans_a_presenter (resetSortType : bool) (w : World) :
  isLoading (this w) = false ->
  pointPresenters (this w) = [] ->
  ~ NoDup (map id (filtered_then_sorted (models w) (currentSortType (this w)))) ->
  let board := renderBoard w in
  List.length (destroyed_presenters (calls (clearBoard resetSortType (world board))))
  < List.length (created_presenters (calls board)).
Proof.
  intros Hl Hempty Hdup board. subst board.
  rewrite clearBoard_run. cbn [calls].
  rewrite destroyed_presenters_clearBoard, length_map.
  destruct (renderBoard_effects w) as (Hcreated & Hmap & _).
  rewrite Hcreated, Hmap, Hl, Hempty.
  pose proof (register_length_duplicate _ (next_ref w) [] Hdup) as Hlt.
  rewrite length_combine, length_seq, Nat.min_id. exact Hlt.
Qed.

(** What [#clearBoard] followed by [#renderBoard] makes of a loaded board:
    every old presenter is destroyed, one presenter is created per point of
    the view under the sort type in force, and the map holds exactly those. *)
Lemma clear_then_render_redraws (resetSortType : bool) (w : World) (np : Ref) :
  newPointPresenter (this w) = Some np ->
  isLoading (this w) = false ->
  let sortType := if resetSortType then DAY else currentSortType (this w) in
  let view := filtered_then_sorted (models w) sortType in
  let r := (clearBoard resetSortType ;; renderBoard) w in
  completion r = Normal tt /\
  currentSortType (this (world r)) = sortType /\
  destroyed_presenters (calls r) = map snd (pointPresenters (this w)) /\
  created_presenters (calls r) = combine (seq (next_ref w) (List.length view)) view /\
  pointPresenters (this (world r)) = register view (next_ref w) [].
Proof.
  intros Hnp Hl sortType view r. subst r.
  destruct (clear_then_render_effects resetSortType w np Hnp) as (Hc & Hw & Hd & Hcr).
  destruct (renderBoard_effects (cleared resetSortType w)) as (Hcreated & Hmap & _).
  pose proof (renderBoard_normal filter sortDay sortPrice sortTime (cleared resetSortType w))
    as (_ & Hsort & _).
  assert (Hl' : isLoading (this (cleared resetSortType w)) = false)
    by (destruct resetSortType; exact Hl).
  assert (Hs' : currentSortType (this (cleared resetSortType w)) = sortType)
    by (destruct resetSortType; reflexivity).
  assert (Hp' : pointPresenters (this (cleared resetSortType w)) = [])
    by (destruct resetSortType; reflexivity).
  rewrite Hl', Hs', Hp' in *.
  change (models (cleared resetSortType w)) with (models w) in *.
  change (next_ref (cleared resetSortType w)) with (next_ref w) in *.
  rewrite Hw, Hcr.
  repeat split; assumption.
Qed.

(** X9. Choosing another sort type on a loaded board makes that type the
    current one, destroys every presenter of the map and creates one
    presenter per visible point in the order of the new sort type; the map
    then holds these presenters only. When the comparator of the new sort
    type is a consistent comparison function for the filtered points, they
    are shown in its order. *)
Theorem sort_type_change_redraws_in_new_order (sortType : SortType) (w : World) (np : Ref) :
  newPointPresenter (this w) = Some np ->
  isLoading (this w) = false ->
  currentSortType (this w) <> sortType ->
  let view := filtered_then_sorted (models w) sortType in
  let r := handleSortTypeChange sortType w in
  completion r = Normal tt /\
  currentSortType (this (world r)) = sortType /\
  destroyed_presenters (calls r) = map snd (pointPresenters (this w)) /\
  map snd (created_presenters (calls r)) = view /\
  pointPresenters (this (world r)) = register view (next_ref w) [] /\
  (forall compareFn,
      comparator sortType = Some compareFn ->
      consistent compareFn
        (filter (filterModel_filter (models w)) (pointsModel_points (models w))) ->
      StronglySorted (precedes compareFn) (map snd (created_presenters (calls r)))).
Proof.
  intros Hnp Hl Hne view r. subst r.
  unfold handleSortTypeChange. rewrite bind_self.
  destruct (SortType_eqb (currentSortType (this w)) sortType) eqn:E.
  { apply SortType_eqb_eq in E. contradiction. }
  rewrite bind_modify.
  destruct (clear_then_render_redraws false (with_this (set_currentSortType sortType) w) np
              Hnp Hl) as (Hc & Hs & Hd & Hcr & Hm).
  cbn [with_this this models next_ref set_currentSortType currentSortType pointPresenters]
    in Hs, Hd, Hcr, Hm.
  fold view in Hcr, Hm.
  assert (Hshown : map snd (created_presenters
                     (calls ((clearBoard false ;; renderBoard)
                               (with_this (set_currentSortType sortType) w)))) = view).
  { rewrite Hcr. apply map_snd_combine_refs. }
  repeat split; try assumption.
  intros compareFn Hcmp Hcons. rewrite Hshown. subst view.
  unfold filtered_then_sorted. rewrite Hcmp. now apply Array_sort_sorted.
Qed.

(** X10. On a loaded board a MINOR or a MAJOR event leaves a presenter map
    that holds only presenters created by this event, one per visible point
    when the ids are distinct: none of the presenters it found is kept. The
    points are those of the view under the current sort type for MINOR and
    under DAY for MAJOR. *)
Theorem minor_major_event_replaces_every_presenter
  (updateType : UpdateType) (data : Payload) (w : World) (np : Ref) :
  updateType = MINOR \/ updateType = MAJOR ->
  newPointPresenter (this w) = Some np ->
  isLoading (this w) = false ->
  let sortType := match updateType with MAJOR => DAY | _ => currentSortType (this w) end in
  let view := filtered_then_sorted (models w) sortType in
  let r := handleModelEvent updateType data w in
  completion r = Normal tt /\
  destroyed_presenters (calls r) = map snd (pointPresenters (this w)) /\
  map snd (created_presenters (calls r)) = view /\
  (forall key ref, Map_get key (pointPresenters (this (world r))) = Some ref ->
                   In ref (map fst (created_presenters (calls r)))) /\
  (NoDup (map id view) ->
   map snd (pointPresenters (this (world r))) = map fst (created_presenters (calls r))).
Proof.
  intros Hu Hnp Hl sortType view r. subst r.
  assert (Hrun : exists resetSortType,
             handleModelEvent updateType data w = (clearBoard resetSortType ;; renderBoard) w /\
             sortType = if resetSortType then DAY else currentSortType (this w)).
  { destruct Hu as [-> | ->]; [exists false | exists true]; split; reflexivity. }
  destruct Hrun as (resetSortType & -> & Hsort).
  destruct (clear_then_render_redraws resetSortType w np Hnp Hl) as (Hc & _ & Hd & Hcr & Hm).
  rewrite <- Hsort in Hcr, Hm. fold view in Hcr, Hm.
  rewrite Hcr, Hm, map_fst_combine_seq, map_snd_combine_refs.
  repeat split; try assumption.
  - intros key ref Hget.
    assert (Hrefs : forall points r m k x,
               Map_get k (register points r m) = Some x ->
               Map_get k m = Some x \/ In x (seq r (List.length points))).
    { clear. induction points as [|q points IH]; intros r m k x Hget; [now left |].
      cbn [register] in Hget. apply IH in Hget as [Hget | Hin].
      - destruct (string_dec (id q) k) as [<- | Hne].
        + rewrite Map_get_set_same in Hget. injection Hget as <-.
          right. cbn [List.length seq]. now left.
        + rewrite Map_get_set_other in Hget by exact Hne. now left.
      - right. cbn [List.length seq]. now right. }
    apply Hrefs in Hget as [Hget | Hin]; [discriminate | exact Hin].
  - intros Hnodup.
    rewrite register_fresh by (trivial; intros ? _ []).
    cbn [app].
    pose proof (map_snd_combine_seq (map id view) (next_ref w)) as E.
    now rewrite length_map in E.
Qed.

(** X11. On a board rendered from an empty map with distinct ids, a mode
    change asks exactly the presenters that the rendering created to reset
    their views, in the order of their creation, and leaves every field as
    it was; it renders nothing. It completes normally exactly when there is
    a new-point presenter. *)
Theorem handleModeChange_resets_rendered_presenters (w : World) :
  pointPresenters (this w) = [] ->
  NoDup (map id (filtered_then_sorted (models w) (currentSortType (this w)))) ->
  let board := renderBoard w in
  let r := handleModeChange (world board) in
  reset_presenters (calls r) = map fst (created_presenters (calls board)) /\
  world r = world board /\
  existsb renders (calls r) = false /\
  (completion r = Normal tt <-> newPointPresenter (this w) <> None).
Proof.
  intros Hempty Hnodup board r. subst r board.
  rewrite handleModeChange_run. cbn [completion world calls].
  destruct (renderBoard_effects w) as (Hcreated & Hmap & _).
  pose proof (renderBoard_normal filter sortDay sortPrice sortTime w) as (_ & _ & Hnp & _).
  rewrite Hnp, Hmap, Hcreated, Hempty.
  set (view := filtered_then_sorted (models w) (currentSortType (this w))) in *.
  assert (Hrefs : forall l : list (string * Ref),
             reset_presenters (map (fun entry => PointPresenter_resetView (snd entry)) l)
             = map snd l /\
             existsb renders (map (fun entry => PointPresenter_resetView (snd entry)) l) = false).
  { induction l as [|e l [IH1 IH2]]; [now split |]. cbn. now rewrite IH1. }
  split; [| split; [reflexivity | split]].
  - rewrite reset_presenters_app.
    rewrite (proj1 (Hrefs _)).
    assert (Htail : reset_presenters
                      match newPointPresenter (this w) with
                      | Some r => [NewPointPresenter_destroy r]
                      | None => []
                      end = []) by (destruct (newPointPresenter (this w)); reflexivity).
    rewrite Htail, app_nil_r.
    destruct (isLoading (this w)); [reflexivity |].
    rewrite register_fresh by (trivial; intros ? _ []).
    cbn [app]. rewrite map_fst_combine_seq.
    pose proof (map_snd_combine_seq (map id view) (next_ref w)) as E.
    now rewrite length_map in E.
  - rewrite existsb_app, (proj2 (Hrefs _)).
    destruct (newPointPresenter (this w)); reflexivity.
  - destruct (newPointPresenter (this w)); split; congruence.
Qed.

(** An INIT event with offers and destinations creates the new-point
    presenter and renders the board. *)
Lemma init_event_ready_run (data : Payload) (w : World) :
  offerModel_offersByType (models w) <> [] ->
  destinationModel_destinations (models w) <> [] ->
  handleModelEvent INIT data w
  = after [remove (Some LoadingView);
           new_NewPointPresenter (next_ref w) (destinationModel_destinations (models w))
             (destinationModel_destinationNames (models w))]
      (renderBoard
         {| models := models w;
            this := set_newPointPresenter (Some (next_ref w)) (set_isLoading false (this w));
            next_ref := S (next_ref w) |}).
Proof.
  intros Ho Hd. unfold handleModelEvent.
  rewrite bind_modify, bind_call, bind_read_models.
  cbn [with_this models].
  destruct (offerModel_offersByType (models w)) as [|o os] eqn:Eo; [contradiction |].
  destruct (destinationModel_destinations (models w)) as [|d ds] eqn:Ed; [contradiction |].
  cbn [List.length Nat.eqb orb].
  rewrite bind_new_ref, bind_call, bind_modify, after_after.
  reflexivity.
Qed.

(** X12. A presenter that was just constructed shows the loading view and
    nothing else when [init] is called, whatever the models hold. The INIT
    event that follows removes the loading view first, ends loading, and
    shows exactly one of the error view, the no-points view and the list. *)
Theorem init_shows_loading_until_the_init_event (ms : Models) (data : Payload) :
  let shown := init (constructor ms) in
  let loaded := handleModelEvent INIT data (world shown) in
  completion shown = Normal tt /\
  calls shown = [render LoadingView (Some AFTERBEGIN)] /\
  this (world shown) = set_filterType (filterModel_filter ms) initial_fields /\
  completion loaded = Normal tt /\
  hd_error (calls loaded) = Some (remove (Some LoadingView)) /\
  isLoading (this (world loaded)) = false /\
  (display_states (calls loaded) = [ShowError] \/
   display_states (calls loaded) = [ShowEmpty] \/
   display_states (calls loaded) = [ShowList]).
Proof.
  intros shown loaded. subst loaded shown. unfold init.
  assert (Hl : isLoading (this (constructor ms)) = true) by reflexivity.
  rewrite (renderBoard_loading _ _ _ _ (constructor ms) Hl).
  cbn [completion world calls].
  split; [reflexivity |]. split; [reflexivity |]. split; [reflexivity |].
  set (w := with_this (set_filterType (filterModel_filter (models (constructor ms))))
              (constructor ms)).
  destruct (offerModel_offersByType (models w)) as [|o os] eqn:Eo.
  { rewrite (init_event_failed_run _ _ _ _ data w (or_introl Eo)).
    repeat split. now left. }
  destruct (destinationModel_destinations (models w)) as [|d ds] eqn:Ed.
  { rewrite (init_event_failed_run _ _ _ _ data w (or_intror Ed)).
    repeat split. now left. }
  rewrite init_event_ready_run by (rewrite ?Eo, ?Ed; discriminate).
  remember {| models := models w;
              this := set_newPointPresenter (Some (next_ref w)) (set_isLoading false (this w));
              next_ref := S (next_ref w) |} as ready eqn:Er.
  assert (Hready : isLoading (this ready) = false) by (subst ready; reflexivity).
  pose proof (renderBoard_normal filter sortDay sortPrice sortTime ready)
    as (Hc & _ & _ & Hkeep & _).
  pose proof (renderBoard_display filter sortDay sortPrice sortTime ready) as Hs.
  rewrite Hready in Hs.
  unfold after. cbn [completion world calls app hd_error display_states shows].
  split; [exact Hc |]. split; [reflexivity |]. split; [now rewrite Hkeep |].
  rewrite Hs. right.
  destruct (filtered_then_sorted (models ready) (currentSortType (this ready)));
    [left | right]; reflexivity.
Qed.

End BoardPresenterLifecycle.

(** ** The further properties on the sample data *)

Section MoreSamples.

Local Abbreviation renderBoard := (renderBoard sample_filter by_day by_price by_time).
Local Abbreviation handleModelEvent := (handleModelEvent sample_filter by_day by_price by_time).
Local Abbreviation handleSortTypeChange := (handleSortTypeChange sample_filter by_day by_price by_time).
Local Abbreviation filtered_then_sorted := (filtered_then_sorted sample_filter by_day by_price by_time).

Lemma sample_filters_plain :
  forallb (fun filter => plain (FilterView.type filter)) sample_filters = true.
Proof. reflexivity. Qed.

Lemma sample_filters_distinct : NoDup (map FilterView.type sample_filters).
Proof. repeat constructor; simpl; intuition discriminate. Qed.

Lemma loaded_view_distinct :
  NoDup (map id (filtered_then_sorted (models (cleared false loaded_world))
                   (currentSortType (this (cleared false loaded_world))))).
Proof.
  change (NoDup ["b"; "a"; "c"]).
  repeat constructor; simpl; intuition discriminate.
Qed.

Lemma duplicate_view_not_distinct :
  ~ NoDup (map id (filtered_then_sorted (models duplicate_world)
                     (currentSortType (this duplicate_world)))).
Proof.
  change (~ NoDup ["b"; "a"; "a"]).
  intros H. inversion H as [|? ? _ H']; subst.
  inversion H' as [|? ? Hnotin _]; subst. apply Hnotin. now left.
Qed.

Lemma createFilterItemTemplate_checked_witness :
  quote_free "future" = true /\
  (input_carries "checked"
     (FilterView.createFilterItemTemplate
        {| FilterView.type := "future"; FilterView.count := 0 |} "future") = true
   <-> "future" = "future").
Proof.
  split; [reflexivity |].
  apply (createFilterItemTemplate_checked_iff_current
           {| FilterView.type := "future"; FilterView.count := 0 |} "future").
  reflexivity.
Defined.

Lemma createFilterItemTemplate_one_radio_input_witness :
  plain "past" = true /\
  verbatim "past" = true /\
  exists tokens,
    inputs (FilterView.createFilterItemTemplate
              {| FilterView.type := "past"; FilterView.count := 2 |} "everything") = [tokens] /\
    attribute "value" tokens = Some "past" /\
    attribute "id" tokens = Some "filter-past" /\
    attribute "type" tokens = Some "radio" /\
    attribute "name" tokens = Some "trip-filter".
Proof.
  split; [reflexivity |]. split; [reflexivity |].
  apply (createFilterItemTemplate_one_radio_input
           {| FilterView.type := "past"; FilterView.count := 2 |} "everything");
    reflexivity.
Defined.

Lemma createFiltersTemplate_inputs_witness :
  forallb (fun filter => plain (FilterView.type filter)) sample_filters = true /\
  forallb (fun filter => verbatim (FilterView.type filter)) sample_filters = true /\
  map (has_attribute "disabled")
    (inputs (FilterView.createFiltersTemplate sample_filters "present"))
  = [false; true; false; false] /\
  map (attribute "value")
    (inputs (FilterView.createFiltersTemplate sample_filters "present"))
  = [Some "everything"; Some "future"; Some "present"; Some "past"].
Proof.
  destruct (createFiltersTemplate_inputs_mirror_items sample_filters "present"
              sample_filters_plain) as (_ & Hdisabled & _ & Hvalues).
  split; [reflexivity |]. split; [reflexivity |].
  split; [exact Hdisabled | exact (Hvalues eq_refl)].
Defined.

Lemma createFiltersTemplate_checks_witness :
  forallb (fun filter => plain (FilterView.type filter)) sample_filters = true /\
  NoDup (map FilterView.type sample_filters) /\
  List.length (List.filter (has_attribute "checked")
                 (inputs (FilterView.createFiltersTemplate sample_filters "present"))) = 1.
Proof.
  split; [reflexivity |]. split; [exact sample_filters_distinct |].
  exact (createFiltersTemplate_checks_at_most_one sample_filters "present"
           sample_filters_plain sample_filters_distinct).
Defined.

Lemma patch_event_without_presenter_witness :
  Map_get (id point_a_again) (pointPresenters (this (cleared false loaded_world))) = None /\
  handleModelEvent PATCH (PointPayload point_a_again) (cleared false loaded_world)
  = Build_Run (Throw undefined_init) (cleared false loaded_world) [].
Proof.
  split; [reflexivity |].
  apply (proj1 (patch_event_without_presenter_throws sample_filter by_day by_price by_time
                  (cleared false loaded_world))).
  reflexivity.
Defined.

Lemma rendered_point_can_be_patched_witness :
  isLoading (this (cleared false loaded_world)) = false /\
  In point_a (filtered_then_sorted (models (cleared false loaded_world))
                (currentSortType (this (cleared false loaded_world)))) /\
  id point_a_again = id point_a /\
  exists ref,
    handleModelEvent PATCH (PointPayload point_a_again)
      (world (renderBoard (cleared false loaded_world)))
    = Build_Run (Normal tt) (world (renderBoard (cleared false loaded_world)))
        [PointPresenter_init ref point_a_again] /\
    In ref (map fst (created_presenters (calls (renderBoard (cleared false loaded_world))))).
Proof.
  assert (Hin : In point_a (filtered_then_sorted (models (cleared false loaded_world))
                              (currentSortType (this (cleared false loaded_world)))))
    by (right; left; reflexivity).
  split; [reflexivity |]. split; [exact Hin |]. split; [reflexivity |].
  exact (rendered_point_can_be_patched sample_filter by_day by_price by_time
           (cleared false loaded_world) point_a point_a_again eq_refl Hin eq_refl).
Defined.

Lemma clearBoard_destroys_created_witness :
  pointPresenters (this (cleared false loaded_world)) = [] /\
  destroyed_presenters
    (calls (clearBoard true (world (renderBoard (cleared false loaded_world)))))
  = map fst (created_presenters (calls (renderBoard (cleared false loaded_world)))).
Proof.
  split; [reflexivity |].
  exact (clearBoard_destroys_what_renderBoard_created sample_filter by_day by_price by_time
           true (cleared false loaded_world) eq_refl loaded_view_distinct).
Defined.

Lemma duplicate_id_witness :
  isLoading (this duplicate_world) = false /\
  pointPresenters (this duplicate_world) = [] /\
  List.length (destroyed_presenters
                 (calls (clearBoard false (world (renderBoard duplicate_world)))))
  < List.length (created_presenters (calls (renderBoard duplicate_world))).
Proof.
  split; [reflexivity |]. split; [reflexivity |].
  exact (duplicate_id_orphans_a_presenter sample_filter by_day by_price by_time
           false duplicate_world eq_refl eq_refl duplicate_view_not_distinct).
Defined.

Lemma sort_type_change_witness :
  newPointPresenter (this loaded_world) = Some 0 /\
  isLoading (this loaded_world) = false /\
  currentSortType (this loaded_world) <> TIME /\
  map snd (created_presenters (calls (handleSortTypeChange TIME loaded_world)))
  = filtered_then_sorted (models loaded_world) TIME /\
  consistent by_time
    (sample_filter (filterModel_filter (models loaded_world))
       (pointsModel_points (models loaded_world))) /\
  StronglySorted (precedes by_time)
    (map snd (created_presenters (calls (handleSortTypeChange TIME loaded_world)))).
Proof.
  assert (Hne : currentSortType (this loaded_world) <> TIME) by discriminate.
  destruct (sort_type_change_redraws_in_new_order sample_filter by_day by_price by_time
              TIME loaded_world 0 eq_refl eq_refl Hne) as (_ & _ & _ & Hshown & _ & Hsorted).
  split; [reflexivity |]. split; [reflexivity |]. split; [exact Hne |].
  split; [exact Hshown |]. split; [apply by_time_consistent |].
  exact (Hsorted by_time eq_refl (by_time_consistent _)).
Defined.

Lemma minor_major_event_replaces_witness :
  (MAJOR = MINOR \/ MAJOR = MAJOR) /\
  newPointPresenter (this loaded_world) = Some 0 /\
  isLoading (this loaded_world) = false /\
  destroyed_presenters (calls (handleModelEvent MAJOR NoPayload loaded_world))
  = map snd (pointPresenters (this loaded_world)).
Proof.
  split; [right; reflexivity |]. split; [reflexivity |]. split; [reflexivity |].
  exact (proj1 (proj2
           (minor_major_event_replaces_every_presenter sample_filter by_day by_price by_time
              MAJOR NoPayload loaded_world 0 (or_intror eq_refl) eq_refl eq_refl))).
Defined.

Lemma handleModeChange_witness :
  pointPresenters (this (cleared false loaded_world)) = [] /\
  reset_presenters (calls (handleModeChange (world (renderBoard (cleared false loaded_world)))))
  = map fst (created_presenters (calls (renderBoard (cleared false loaded_world)))).
Proof.
  split; [reflexivity |].
  exact (proj1 (handleModeChange_resets_rendered_presenters sample_filter by_day by_price
                  by_time (cleared false loaded_world) eq_refl loaded_view_distinct)).
Defined.

(** The same runs, evaluated. *)
Example redrawn_board_is_cleared_in_full :
  map fst (created_presenters (calls (renderBoard (cleared false loaded_world)))) = [4; 5; 6] /\
  destroyed_presenters
    (calls (clearBoard true (world (renderBoard (cleared false loaded_world))))) = [4; 5; 6].
Proof. split; vm_compute; reflexivity. Qed.

Example duplicate_id_leaves_one_presenter_behind :
  map fst (created_presenters (calls (renderBoard duplicate_world))) = [0; 1; 2] /\
  destroyed_presenters (calls (clearBoard false (world (renderBoard duplicate_world))))
  = [0; 2].
Proof. split; vm_compute; reflexivity. Qed.

Lemma filterTypeChangeHandler_witness :
  forallb (fun filter => plain (FilterView.type filter)) sample_filters = true /\
  nth_error sample_filters 2 = Some {| FilterView.type := "present"; FilterView.count := 1 |} /\
  verbatim "present" = true /\
  exists tokens value,
    nth_error (inputs (FilterViewClass.template
                         {| FilterViewClass.filters := sample_filters;
                            FilterViewClass.currentFilterType := "everything" |})) 2
    = Some tokens /\
    attribute "value" tokens = Some value /\
    FilterViewClass.filterTypeChangeHandler value
    = [FilterViewClass.evt_preventDefault; FilterViewClass.handleFilterTypeChange "present"].
Proof.
  split; [reflexivity |]. split; [reflexivity |]. split; [reflexivity |].
  exact (filterTypeChangeHandler_reports_item_type
           {| FilterViewClass.filters := sample_filters;
              FilterViewClass.currentFilterType := "everything" |}
           2 {| FilterView.type := "present"; FilterView.count := 1 |}
           sample_filters_plain eq_refl eq_refl).
Defined.

(** A comparator that never answers a negative number is not consistent:
    its [=] is not symmetric. Nothing is said of the order it gives. *)
Example one_or_zero_is_not_consistent : ~ consistent one_or_zero [point_a; point_b].
Proof.
  intros Hc.
  destruct (Hc point_b point_a point_b) as (_ & Hsym & _); simpl; auto.
  specialize (Hsym eq_refl). discriminate Hsym.
Qed.

(** A value with a character reference is not read as it is written: the
    reader gives no value for it. *)
Example value_with_a_reference_is_not_read :
  plain "R&amp;D" = true /\
  attribute "value"
    (item_tokens {| FilterView.type := "R&amp;D"; FilterView.count := 1 |} "everything")
  = None.
Proof. split; reflexivity. Qed.

End MoreSamples.
